(** * linear_util: functions composed with a stack of transformations

    A shallow embedding of [jax/_src/linear_util.py]: the single-assignment
    stores ([Store], [EqualStore]), the wrapped function ([WrappedFun]) with
    its two-phase call protocol, the memoization decorator ([cache]) and
    [merge_linear_aux].

    Python objects that are mutated and shared (the stores) live in a heap
    that is threaded through every call; an exception is an outcome and
    leaves the effects made before it in place. *)

From Stdlib Require Import ZArith String List Bool Lia.
From Stdlib Require Import Sorting.Sorted Sorting.Permutation.
From Stdlib Require OrderedTypeEx.
From stdpp Require Import base option list gmap strings.

#[local] Set Warnings "-register-all".

Local Open Scope string_scope.

(** ** Python values *)

(** The immutable values that travel through a wrapped function: arguments,
    results, static arguments and auxiliary outputs.  A [str] is the list
    of its characters, one [ascii] for each character (so the characters
    are those with a code point below 256); its order is that of the code
    points. *)
Inductive value : Type :=
| VNone
| VBool (b : bool)
| VInt (z : Z)
| VStr (s : string)
| VTuple (vs : list value).

(** Keyword arguments: a Python dict with string keys, in insertion order. *)
Definition kwargs_t : Type := list (string * value).

Fixpoint dict_get (d : kwargs_t) (k : string) : option value :=
  match d with
  | [] => None
  | (k', v) :: d' => if String.eqb k' k then Some v else dict_get d' k
  end.

(** [d[k] = v]: an existing key keeps its position, a new one goes last. *)
Fixpoint dict_set (d : kwargs_t) (k : string) (v : value) : kwargs_t :=
  match d with
  | [] => [(k, v)]
  | (k', v') :: d' =>
      if String.eqb k' k then (k', v) :: d' else (k', v') :: dict_set d' k v
  end.

(** [d.update(items)], which is also how [dict(items)] fills a new dict. *)
Definition dict_update (d : kwargs_t) (items : list (string * value)) : kwargs_t :=
  fold_left (fun acc kv => dict_set acc (fst kv) (snd kv)) items d.

(** [dict(params, **kwargs)]. *)
Definition dict_of (params : list (string * value)) (kwargs : kwargs_t) : kwargs_t :=
  dict_update (dict_update [] params) kwargs.

(** A [bool] is an [int]: [True] is 1 and [False] is 0. *)
Definition int_of_bool (b : bool) : Z := if b then 1%Z else 0%Z.

(** The [==] of these values, used where Python compares tuples of static
    arguments, parameters and dictionary keys: numbers by their value (so
    that [True == 1] and [False == 0]), strings by their characters,
    tuples item by item, and [None] with itself only. *)
Fixpoint value_eqb (a b : value) {struct a} : bool :=
  match a, b with
  | VNone, VNone => true
  | VBool x, VBool y => Bool.eqb x y
  | VBool x, VInt y => Z.eqb (int_of_bool x) y
  | VInt x, VBool y => Z.eqb x (int_of_bool y)
  | VInt x, VInt y => Z.eqb x y
  | VStr x, VStr y => String.eqb x y
  | VTuple xs, VTuple ys =>
      (fix go (xs ys : list value) {struct xs} : bool :=
         match xs, ys with
         | [], [] => true
         | x :: xs', y :: ys' => value_eqb x y && go xs' ys'
         | _, _ => false
         end) xs ys
  | _, _ => false
  end.

(** The outcome of [bool(a == b)] as Python evaluates it: [Some] of the
    truth value, or [None] when the comparison or its truth value raises
    (an array compared elementwise has no single truth value).  The
    stores only rely on this interface. *)
Class PyEq := py_eq : value -> value -> option bool.

(** The interface instantiated with the [==] of the values above, which
    never raises. *)
Definition structural_eq : PyEq := fun a b => Some (value_eqb a b).

(** The representative of the values equal to [v]: every [bool] inside is
    replaced by its [int]. *)
Fixpoint canonical (v : value) : value :=
  match v with
  | VBool b => VInt (int_of_bool b)
  | VTuple vs => VTuple (map canonical vs)
  | _ => v
  end.

(** ** Exceptions, the heap and the effect monad *)

Inductive exn : Type :=
| StoreException (msg : string)
| PyException (kind : string) (payload : value).

Inductive outcome (A : Type) : Type :=
| Ok (a : A)
| Raise (e : exn).
Arguments Ok {A} a.
Arguments Raise {A} e.

(** The address of a [Store] object. *)
Definition loc : Type := nat.

(** The mutable state a call can see: the [_val] attribute of every
    [Store] object (a missing address holds [_EMPTY_STORE_VALUE]), the
    address the next [Store] object gets, and the process-wide state that
    user code may touch. *)
Record world : Type := World {
  store_vals : gmap loc value;
  next_store : loc;
  globals : gmap string value
}.

Definition set_store_vals (f : gmap loc value -> gmap loc value) (w : world) : world :=
  {| store_vals := f (store_vals w); next_store := next_store w; globals := globals w |}.

Definition set_globals (f : gmap string value -> gmap string value) (w : world) : world :=
  {| store_vals := store_vals w; next_store := next_store w; globals := f (globals w) |}.

(** A Python computation: it ends with a value or an exception, and in
    both cases with the state it reached. *)
Definition py (A : Type) : Type := world -> outcome A * world.

Definition ret {A} (a : A) : py A := fun w => (Ok a, w).

Definition raise {A} (e : exn) : py A := fun w => (Raise e, w).

Definition bind {A B} (c : py A) (k : A -> py B) : py B :=
  fun w =>
    match c w with
    | (Ok a, w') => k a w'
    | (Raise e, w') => (Raise e, w')
    end.

Notation "'let*' x ':=' c 'in' k" := (bind c (fun x => k))
  (at level 10, x pattern, c at level 100, k at level 200).

(** [try: c  except: h(e)] with a bare [except], which catches everything. *)
Definition try_except {A} (c : py A) (h : exn -> py A) : py A :=
  fun w =>
    match c w with
    | (Ok a, w') => (Ok a, w')
    | (Raise e, w') => h e w'
    end.

(** ** Store *)

Module Store.

(** [Store.__init__]: a new object, holding [_EMPTY_STORE_VALUE].  Its
    address is [next_store]; the objects made before it are those with an
    address below [next_store], which is what [stores_made] says of the
    stores of a wrapped function. *)
Definition init : py loc :=
  fun w =>
    (Ok (next_store w),
     {| store_vals := delete (next_store w) (store_vals w);
        next_store := S (next_store w);
        globals := globals w |}).

(** [Store.__nonzero__] *)
Definition nonzero (self : loc) : py bool :=
  fun w => (Ok (bool_decide (is_Some (store_vals w !! self))), w).

(** [Store.store] *)
Definition store (self : loc) (val : value) : py unit :=
  fun w =>
    match store_vals w !! self with
    | Some _ => (Raise (StoreException "Store occupied"), w)
    | None => (Ok tt, set_store_vals (insert self val) w)
    end.

(** [Store.reset] *)
Definition reset (self : loc) : py unit :=
  fun w => (Ok tt, set_store_vals (delete self) w).

(** [Store.val]; the last case is never reached, [nonzero] having
    answered that a value is held. *)
Definition val (self : loc) : py value :=
  let* occupied := nonzero self in
  if negb occupied then raise (StoreException "Store empty")
  else fun w =>
    match store_vals w !! self with
    | Some v => (Ok v, w)
    | None => (Raise (StoreException "Store empty"), w)
    end.

End Store.

(** ** EqualStore *)

Module EqualStore.
Section WithEq.
Context `{PyEq}.

(** [EqualStore.__init__]: the inner [_store] is a new [Store]. *)
Definition init : py loc := Store.init.

(** [EqualStore.val], the [val] of the inner [_store]. *)
Definition val (self : loc) : py value := Store.val self.

(** [EqualStore.store] *)
Definition store (self : loc) (val : value) : py unit :=
  try_except (Store.store self val)
    (fun e =>
       match e with
       | StoreException _ =>
           fun w =>
             match store_vals w !! self with
             | Some held =>
                 match py_eq held val with
                 | None => (Raise e, w)
                 | Some okay =>
                     if negb okay
                     then (Raise (StoreException "Store occupied with not-equal value"), w)
                     else (Ok tt, w)
                 end
             | None => (Raise (StoreException "Store occupied with not-equal value"), w)
             end
       | _ => raise e
       end).

(** [EqualStore.reset] *)
Definition reset (self : loc) : py unit := Store.reset self.

End WithEq.
End EqualStore.

(** ** WrappedFun *)

(** What [out_store] can be: a [Store] or an [EqualStore], each known by
    the address of its (inner) [Store]. *)
Inductive store_obj : Type :=
| AStore (l : loc)
| AnEqualStore (l : loc).

Definition store_loc (s : store_obj) : loc :=
  match s with AStore l => l | AnEqualStore l => l end.

(** A generator object suspended at its first [yield]: what [send] and
    [close] do to it from there. *)
Record generator : Type := Generator {
  send : value -> py value;
  close : py unit
}.

(** A generator function.  [gen_run] is the call [gen] on its arguments
    followed by [next]: it runs the body to its first [yield] and returns
    the yielded [(args, kwargs)] with the suspended generator.  Function
    objects compare by identity, which [gen_id] stands for. *)
Record gen_function : Type := GenFunction {
  gen_id : nat;
  gen_run : list value -> kwargs_t -> py (list value * kwargs_t * generator)
}.

(** The function to be transformed. *)
Record function : Type := Function {
  fun_id : nat;
  fun_run : list value -> kwargs_t -> py value
}.

(** [TracingDebugInfo]; [result_paths] is a callable or [None]. *)
Record TracingDebugInfo : Type := MkTracingDebugInfo {
  traced_for : string;
  func_src_info : string;
  arg_names : list string;
  result_paths : option nat
}.

Record WrappedFun : Type := MkWrappedFun {
  f : function;
  transforms : list (gen_function * list value);
  stores : list (option store_obj);
  params : list (string * value);
  in_type : option value;
  debug_info : option TracingDebugInfo
}.

(** [WrappedFun.wrap] *)
Definition wrap (self : WrappedFun) (gen : gen_function) (gen_static_args : list value)
    (out_store : option store_obj) : WrappedFun :=
  MkWrappedFun (f self) ((gen, gen_static_args) :: transforms self)
               (out_store :: stores self) (params self) None None.

(** [ans, side = ans]: unpacking an iterable of exactly two items; the
    items of a [str] are its characters. *)
Definition unpack2 (v : value) : py (value * value) :=
  match v with
  | VTuple [a; b] => ret (a, b)
  | VTuple _ => raise (PyException "ValueError" v)
  | VStr (String a (String b EmptyString)) =>
      ret (VStr (String a EmptyString), VStr (String b EmptyString))
  | VStr _ => raise (PyException "ValueError" v)
  | _ => raise (PyException "TypeError" v)
  end.

(** [while stack: stack.pop()[0].close()].  The Python list [stack] is
    kept with its last element first, so [pop] takes the head. *)
Fixpoint close_all (stack : list (generator * option store_obj)) : py unit :=
  match stack with
  | [] => ret tt
  | (gen, _) :: stack' => let* _ := close gen in close_all stack'
  end.

(** [out_store.val], by the class of the store. *)
Definition out_store_val (s : store_obj) : py value :=
  match s with
  | AStore l => Store.val l
  | AnEqualStore l => EqualStore.val l
  end.

Section WithEq.
Context `{PyEq}.

(** [out_store.store(v)], by the class of the store. *)
Definition out_store_store (s : store_obj) (v : value) : py unit :=
  match s with
  | AStore l => Store.store l v
  | AnEqualStore l => EqualStore.store l v
  end.

(** [WrappedFun.populate_stores]: the loop over [zip(self.stores, stores)]. *)
Fixpoint populate_stores_loop
    (pairs : list (option store_obj * option store_obj)) : py unit :=
  match pairs with
  | [] => ret tt
  | (self_store, other_store) :: pairs' =>
      match self_store with
      | Some s =>
          let* v := match other_store with
                    | Some o => out_store_val o
                    | None => raise (PyException "AttributeError" (VStr "val"))
                    end in
          let* _ := out_store_store s v in
          populate_stores_loop pairs'
      | None => populate_stores_loop pairs'
      end
  end.

Definition populate_stores (self : WrappedFun) (stores' : list (option store_obj)) : py unit :=
  populate_stores_loop (zip (stores self) stores').

(** The first loop of [call_wrapped]: each generator is started on the
    current [(args, kwargs)] and pushed on [stack]. *)
Fixpoint apply_transforms
    (entries : list ((gen_function * list value) * option store_obj))
    (args : list value) (kwargs : kwargs_t)
    (stack : list (generator * option store_obj))
    : py (list value * kwargs_t * list (generator * option store_obj)) :=
  match entries with
  | [] => ret (args, kwargs, stack)
  | ((gen, gen_static_args), out_store) :: entries' =>
      let* (args', kwargs', g) := gen_run gen (gen_static_args ++ args) kwargs in
      apply_transforms entries' args' kwargs' ((g, out_store) :: stack)
  end.

(** The second loop of [call_wrapped]: each generator popped from [stack]
    is sent the current answer. *)
Fixpoint unwind (stack : list (generator * option store_obj)) (ans : value) : py value :=
  match stack with
  | [] => ret ans
  | (gen, out_store) :: stack' =>
      let* ans := try_except (send gen ans)
                    (fun e => let* _ := close_all stack' in raise e) in
      match out_store with
      | Some s =>
          let* (ans, side) := unpack2 ans in
          let* _ := out_store_store s side in
          unwind stack' ans
      | None => unwind stack' ans
      end
  end.

(** [WrappedFun.call_wrapped] *)
Definition call_wrapped (self : WrappedFun) (args : list value) (kwargs : kwargs_t)
    : py value :=
  let* (args, kwargs, stack) :=
    apply_transforms (zip (transforms self) (stores self)) args kwargs [] in
  let* ans := try_except (fun_run (f self) args (dict_of (params self) kwargs))
                (fun e => let* _ := close_all stack in raise e) in
  unwind stack ans.

End WithEq.

(** [WrappedFun.__eq__], over [f], [transforms], [params], [in_type] and
    [debug_info].  Functions and generator functions compare by identity,
    everything else with the [==] of its values. *)
Definition transform_eqb (a b : gen_function * list value) : bool :=
  Nat.eqb (gen_id (fst a)) (gen_id (fst b)) && value_eqb (VTuple (snd a)) (VTuple (snd b)).

Fixpoint list_eqb {A} (eqb : A -> A -> bool) (xs ys : list A) : bool :=
  match xs, ys with
  | [], [] => true
  | x :: xs', y :: ys' => eqb x y && list_eqb eqb xs' ys'
  | _, _ => false
  end.

Definition option_eqb {A} (eqb : A -> A -> bool) (x y : option A) : bool :=
  match x, y with
  | None, None => true
  | Some a, Some b => eqb a b
  | _, _ => false
  end.

Definition param_eqb (a b : string * value) : bool :=
  String.eqb (fst a) (fst b) && value_eqb (snd a) (snd b).

Definition debug_info_eqb (a b : TracingDebugInfo) : bool :=
  String.eqb (traced_for a) (traced_for b)
  && String.eqb (func_src_info a) (func_src_info b)
  && list_eqb String.eqb (arg_names a) (arg_names b)
  && option_eqb Nat.eqb (result_paths a) (result_paths b).

Definition WrappedFun_eq (self other : WrappedFun) : bool :=
  Nat.eqb (fun_id (f self)) (fun_id (f other))
  && list_eqb transform_eqb (transforms self) (transforms other)
  && list_eqb param_eqb (params self) (params other)
  && option_eqb value_eqb (in_type self) (in_type other)
  && option_eqb debug_info_eqb (debug_info self) (debug_info other).

(** The tuple that [WrappedFun.__hash__] hashes, with every function
    replaced by its identity. *)
Definition hashed_tuple : Type :=
  nat * list (nat * list value) * list (string * value) * option value
  * option TracingDebugInfo.

Definition transforms_key (ts : list (gen_function * list value)) : list (nat * list value) :=
  map (fun t => (gen_id (fst t), snd t)) ts.

(** Python's [hash] of such a tuple, about which nothing is assumed. *)
Class PyHash := py_hash : hashed_tuple -> Z.

(** [WrappedFun.__hash__] *)
Definition WrappedFun_hash `{PyHash} (self : WrappedFun) : Z :=
  py_hash (fun_id (f self), transforms_key (transforms self), params self,
           in_type self, debug_info self).

(** ** Building wrapped functions *)

(** [transformation]: [gen] added to [fun] without a store. *)
Definition transformation (gen : gen_function) (fun_ : WrappedFun)
    (gen_static_args : list value) : WrappedFun :=
  wrap fun_ gen gen_static_args None.

(** [transformation_with_aux]: a new store is made for the auxiliary
    output, and returned behind the thunk that reads it. *)
Definition transformation_with_aux (gen : gen_function) (fun_ : WrappedFun)
    (gen_static_args : list value) (use_eq_store : bool)
    : py (WrappedFun * py value) :=
  let* out_store :=
    if negb use_eq_store
    then (let* l := Store.init in ret (AStore l))
    else (let* l := EqualStore.init in ret (AnEqualStore l)) in
  let out_thunk := out_store_val out_store in
  ret (wrap fun_ gen gen_static_args (Some out_store), out_thunk).

(** [sorted(params.items())]: the items in increasing order of their keys
    (the keys of a dict are distinct, so no two items compare their values). *)
Fixpoint insert_sorted (kv : string * value) (l : list (string * value))
    : list (string * value) :=
  match l with
  | [] => [kv]
  | kv' :: l' =>
      if String.leb (fst kv) (fst kv') then kv :: l else kv' :: insert_sorted kv l'
  end.

Definition sorted (items : list (string * value)) : list (string * value) :=
  fold_right insert_sorted [] items.

(** [wrap_init] *)
Definition wrap_init (f0 : function) (params0 : option kwargs_t) : WrappedFun :=
  let params1 := match params0 with None => [] | Some d => sorted d end in
  MkWrappedFun f0 [] [] params1 None None.

(** [add_debug_info] *)
Definition add_debug_info (f0 : WrappedFun) (debug_info0 : option TracingDebugInfo)
    : py WrappedFun :=
  match debug_info f0 with
  | Some _ => raise (PyException "AssertionError" VNone)
  | None =>
      match debug_info0 with
      | None => ret f0
      | Some d =>
          ret (MkWrappedFun (f f0) (transforms f0) (stores f0) (params f0)
                            (in_type f0) (Some d))
      end
  end.

(** [hashable_partial]: the generator yields its positional arguments
    with no keyword arguments, then yields back what it is sent.  It takes
    no keyword arguments. *)
Definition hashable_partial_gen : gen_function :=
  GenFunction 0
    (fun args kwargs =>
       match kwargs with
       | [] => ret (args, [], Generator (fun ans => ret ans) (ret tt))
       | _ :: _ => raise (PyException "TypeError" VNone)
       end).

Definition hashable_partial (fun_ : WrappedFun) (gen_static_args : list value) : WrappedFun :=
  transformation hashable_partial_gen fun_ gen_static_args.

(** ** merge_linear_aux *)

(** [try: c  except StoreException: h  else: k(result)]. *)
Definition try_StoreException {A B} (c : py A) (h : py B) (k : A -> py B) : py B :=
  fun w =>
    match c w with
    | (Ok a, w') => k a w'
    | (Raise (StoreException _), w') => h w'
    | (Raise e, w') => (Raise e, w')
    end.

(** [merge_linear_aux] *)
Definition merge_linear_aux (aux1 aux2 : py value) : py value :=
  try_StoreException aux1
    (try_StoreException aux2
       (raise (StoreException "neither store occupied"))
       (fun out2 => ret (VTuple [VBool false; out2])))
    (fun out1 =>
       try_StoreException aux2
         (ret (VTuple [VBool true; out1]))
         (fun _ => raise (StoreException "both stores occupied"))).

(** ** cache *)

(** The configuration values that [memoized_fun] reads; [trace_context]
    is what [config._trace_context()] returns at the time of the call. *)
Record config_t : Type := MkConfig {
  jax_check_tracer_leaks : bool;
  x64_enabled : bool;
  jax_default_device : value;
  trace_context : value
}.

(** A memoization key: [(transforms, params, in_type, args, x64_enabled,
    jax_default_device, _trace_context())]. *)
Definition cache_key : Type :=
  list (nat * list value) * list (string * value) * option value * list value
  * bool * value * value.

Definition key_transform_eqb (a b : nat * list value) : bool :=
  Nat.eqb (fst a) (fst b) && value_eqb (VTuple (snd a)) (VTuple (snd b)).

Definition cache_key_eqb (a b : cache_key) : bool :=
  match a, b with
  | (ts1, ps1, it1, args1, x1, d1, c1), (ts2, ps2, it2, args2, x2, d2, c2) =>
      list_eqb key_transform_eqb ts1 ts2
      && list_eqb param_eqb ps1 ps2
      && option_eqb value_eqb it1 it2
      && value_eqb (VTuple args1) (VTuple args2)
      && Bool.eqb x1 x2
      && value_eqb d1 d2
      && value_eqb c1 c2
  end.

(** The dict of one function: key to [(ans, stores)]. *)
Definition cache_table : Type := list (cache_key * (value * list (option store_obj))).

(** [cache.get(key, None)] *)
Fixpoint table_get (cache : cache_table) (key : cache_key)
    : option (value * list (option store_obj)) :=
  match cache with
  | [] => None
  | (k, r) :: cache' => if cache_key_eqb k key then Some r else table_get cache' key
  end.

(** [cache[key] = r] *)
Fixpoint table_set (cache : cache_table) (key : cache_key)
    (r : value * list (option store_obj)) : cache_table :=
  match cache with
  | [] => [(key, r)]
  | (k, r') :: cache' =>
      if cache_key_eqb k key then (k, r) :: cache' else (k, r') :: table_set cache' key r
  end.

Section Cache.
Context `{PyEq}.

(** The decorated function. *)
Variable call : WrappedFun -> list value -> py value.

(** [_copy_main_traces] maps [tree_map] over the transforms and copies
    every [core.MainTrace] leaf; both come from outside this module and
    are taken as given. *)
Variable _copy_main_traces : list (nat * list value) -> list (nat * list value).

(** The key [memoized_fun] builds. *)
Definition make_key (cfg : config_t) (fun_ : WrappedFun) (args : list value) : cache_key :=
  if jax_check_tracer_leaks cfg
  then (_copy_main_traces (transforms_key (transforms fun_)), params fun_, in_type fun_,
        args, x64_enabled cfg, jax_default_device cfg, trace_context cfg)
  else (transforms_key (transforms fun_), params fun_, in_type fun_,
        args, x64_enabled cfg, jax_default_device cfg, trace_context cfg).

(** [memoized_fun].  [fun_caches], the dictionary owned by the decorator,
    maps the identity of [fun.f] to the dict of that function; a call
    returns its outcome, the state it reached and the updated dictionary. *)
Definition memoized_fun (cfg : config_t) (fun_ : WrappedFun) (args : list value)
    (fun_caches : gmap nat cache_table) (w : world)
    : outcome value * world * gmap nat cache_table :=
  let fid := fun_id (f fun_) in
  let cache := default [] (fun_caches !! fid) in
  let fun_caches := <[fid := cache]> fun_caches in
  let key := make_key cfg fun_ args in
  match table_get cache key with
  | Some (ans, stores') =>
      match populate_stores fun_ stores' w with
      | (Ok _, w') => (Ok ans, w', fun_caches)
      | (Raise e, w') => (Raise e, w', fun_caches)
      end
  | None =>
      match call fun_ args w with
      | (Ok ans, w') =>
          (Ok ans, w', <[fid := table_set cache key (ans, stores fun_)]> fun_caches)
      | (Raise e, w') => (Raise e, w', fun_caches)
      end
  end.

(** [_evict_function] *)
Definition _evict_function (f0 : function) (fun_caches : gmap nat cache_table)
    : gmap nat cache_table :=
  delete (fun_id f0) fun_caches.

(** [cache_clear] *)
Definition cache_clear (fun_caches : gmap nat cache_table) : gmap nat cache_table := ∅.

End Cache.

(** ** The composition law, as the specification words it *)

(** One wrapping step: the generator function with its static arguments,
    and the store of its auxiliary output, if any. *)
Definition wrapping : Type := (gen_function * list value) * option store_obj.

(** [fun] wrapped with each of [ts], the first of [ts] first. *)
Definition wrap_all (fun_ : WrappedFun) (ts : list wrapping) : WrappedFun :=
  fold_left (fun wf t => wrap wf (fst (fst t)) (snd (fst t)) (snd t)) ts fun_.

Section Composition.
Context `{PyEq}.

(** The argument-rewriting phases of [ts], in the order of the list; the
    suspended transformations are returned in that same order. *)
Fixpoint rewrite_args (ts : list wrapping) (args : list value) (kwargs : kwargs_t)
    : py (list value * kwargs_t * list (generator * option store_obj)) :=
  match ts with
  | [] => ret (args, kwargs, [])
  | ((gen, gen_static_args), out_store) :: ts' =>
      let* (args1, kwargs1, g) := gen_run gen (gen_static_args ++ args) kwargs in
      let* (args2, kwargs2, gs) := rewrite_args ts' args1 kwargs1 in
      ret (args2, kwargs2, (g, out_store) :: gs)
  end.

(** The result-rewriting phase of one suspended transformation: it is
    resumed with the result, and when it captures an auxiliary output it
    yields a pair whose second part goes to its store. *)
Definition rewrite_result (t : generator * option store_obj) (ans : value) : py value :=
  let* ans1 := send (fst t) ans in
  match snd t with
  | Some s =>
      let* (ans2, side) := unpack2 ans1 in
      let* _ := out_store_store s side in
      ret ans2
  | None => ret ans1
  end.

(** The result-rewriting phases of [gs], in the order of the list. *)
Fixpoint rewrite_results (gs : list (generator * option store_obj)) (ans : value)
    : py value :=
  match gs with
  | [] => ret ans
  | t :: gs' => let* ans1 := rewrite_result t ans in rewrite_results gs' ans1
  end.

(** The manual composition for [ts = T1, ..., Tn]: the argument phases of
    [Tn, ..., T1], then the call of the function, then the result phases
    of [T1, ..., Tn]. *)
Definition manual_composition (f0 : function) (params0 : list (string * value))
    (ts : list wrapping) (args : list value) (kwargs : kwargs_t) : py value :=
  let* (args1, kwargs1, gs) := rewrite_args (rev ts) args kwargs in
  let* ans := fun_run f0 args1 (dict_of params0 kwargs1) in
  rewrite_results (rev gs) ans.

End Composition.

(** ** Replaying recorded stores *)

(** The addresses of the stores in a list of [stores]. *)
Fixpoint slot_locs (ss : list (option store_obj)) : list loc :=
  match ss with
  | [] => []
  | Some s :: ss' => store_loc s :: slot_locs ss'
  | None :: ss' => slot_locs ss'
  end.

(** The addresses of the stores in a list of [stores] that hold nothing
    in [w]. *)
Fixpoint empty_slot_locs (w : world) (ss : list (option store_obj)) : list loc :=
  match ss with
  | [] => []
  | Some s :: ss' =>
      match store_vals w !! store_loc s with
      | None => store_loc s :: empty_slot_locs w ss'
      | Some _ => empty_slot_locs w ss'
      end
  | None :: ss' => empty_slot_locs w ss'
  end.

Section ReplayReady.
Context `{PyEq}.

(** What a store of the current function needs for the recorded store at
    its position to be replayed into it: the recorded store is there and
    holds a value, and the store of the function either holds nothing, or
    is an [EqualStore] that holds a value equal to the recorded one. *)
Definition replay_pair (w : world) (self_store other_store : option store_obj) : Prop :=
  match self_store with
  | None => True
  | Some s =>
      exists o v,
        other_store = Some o
        /\ store_vals w !! store_loc o = Some v
        /\ (store_vals w !! store_loc s = None
            \/ exists l held,
                 s = AnEqualStore l
                 /\ store_vals w !! l = Some held
                 /\ py_eq held v = Some true)
  end.

(** The same at every position of the stores of the function. *)
Fixpoint replay_pairs (w : world) (self_stores recorded : list (option store_obj)) : Prop :=
  match self_stores with
  | [] => True
  | self_store :: self_stores' =>
      match recorded with
      | [] => replay_pair w self_store None /\ replay_pairs w self_stores' []
      | other_store :: recorded' =>
          replay_pair w self_store other_store /\ replay_pairs w self_stores' recorded'
      end
  end.

(** Ready for a replay: every position is, and the stores of the function
    that hold nothing are distinct objects. *)
Definition replay_ready (w : world) (self_stores recorded : list (option store_obj)) : Prop :=
  replay_pairs w self_stores recorded /\ List.NoDup (empty_slot_locs w self_stores).

End ReplayReady.

(** The stores of a wrapped function were made before the next one will
    be: their addresses are below [next_store], and nothing is held at an
    address that no object has yet. *)
Definition stores_made (w : world) (ss : list (option store_obj)) : Prop :=
  (forall l, In l (slot_locs ss) -> l < next_store w)
  /\ (forall l, next_store w <= l -> store_vals w !! l = None).

(** A copy of the transforms for the key that keeps equal transforms
    equal, as a copy that is equal to its original does. *)
Definition copy_respects (copy : list (nat * list value) -> list (nat * list value)) : Prop :=
  forall a b,
    list_eqb key_transform_eqb a b = true ->
    list_eqb key_transform_eqb (copy a) (copy b) = true.

(** The key and the hashed tuple with every value replaced by its
    representative: two keys are one key of a dict when these are the
    same. *)
Definition canonical_transform (t : nat * list value) : nat * list value :=
  (fst t, map canonical (snd t)).

Definition canonical_param (p : string * value) : string * value :=
  (fst p, canonical (snd p)).

Definition canonical_key (k : cache_key) : cache_key :=
  match k with
  | (ts, ps, it, args, x, d, c) =>
      (map canonical_transform ts, map canonical_param ps, option_map canonical it,
       map canonical args, x, canonical d, canonical c)
  end.

Definition canonical_view (self : WrappedFun) : hashed_tuple :=
  (fun_id (f self), map canonical_transform (transforms_key (transforms self)),
   map canonical_param (params self), option_map canonical (in_type self),
   debug_info self).

(** The generators of [gs] closed one after the other, each [close]
    returning, from the state [w] to the state [w']. *)
Inductive closed_in_turn : list generator -> world -> world -> Prop :=
| closed_none (w : world) : closed_in_turn [] w w
| closed_next (g : generator) (gs : list generator) (w w1 w2 : world) :
    close g w = (Ok tt, w1) ->
    closed_in_turn gs w1 w2 ->
    closed_in_turn (g :: gs) w w2.

(** ** Concrete functions and transformations *)

(** A state with no store written and nothing in the globals. *)
Definition empty_world : world := World ∅ 0 ∅.

(** [def plus_one(x): return x + 1] *)
Definition plus_one : function :=
  Function 1
    (fun args kwargs =>
       match args, kwargs with
       | [VInt x], [] => ret (VInt (x + 1))
       | _, _ => raise (PyException "TypeError" VNone)
       end).

(** [def double_args(x): ans = yield (2 * x,), {}; yield ans] *)
Definition double_args : gen_function :=
  GenFunction 2
    (fun args kwargs =>
       match args, kwargs with
       | [VInt x], [] => ret ([VInt (2 * x)], [], Generator (fun ans => ret ans) (ret tt))
       | _, _ => raise (PyException "TypeError" VNone)
       end).

(** [def negate_result( *args, **kwargs):
       ans = yield args, kwargs; yield -ans, abs(ans)] *)
Definition negate_result : gen_function :=
  GenFunction 3
    (fun args kwargs =>
       ret (args, kwargs,
            Generator
              (fun ans =>
                 match ans with
                 | VInt r => ret (VTuple [VInt (- r); VInt (Z.abs r)])
                 | _ => raise (PyException "TypeError" ans)
                 end)
              (ret tt))).

(** [counter += d] on a global [counter] that starts at 0. *)
Definition counter_of (w : world) : Z :=
  match globals w !! "counter" with
  | Some (VInt n) => n
  | _ => 0%Z
  end.

Definition bump (d : Z) : py unit :=
  fun w => (Ok tt, set_globals (insert "counter" (VInt (counter_of w + d))) w).

(** [def tracked( *args, **kwargs):
       counter += 1
       try: ans = yield args, kwargs
       finally: counter -= 1
       yield ans] *)
Definition tracked : gen_function :=
  GenFunction 4
    (fun args kwargs =>
       let* _ := bump 1 in
       ret (args, kwargs,
            Generator (fun ans => let* _ := bump (-1) in ret ans) (bump (-1)))).

(** [def raising_gen( *args, **kwargs): raise ValueError("boom"); yield] *)
Definition raising_gen : gen_function :=
  GenFunction 5 (fun args kwargs => raise (PyException "ValueError" (VStr "boom"))).

(** [def raising_fun( *args, **kwargs): raise ValueError("boom")] *)
Definition raising_fun : function :=
  Function 6 (fun args kwargs => raise (PyException "ValueError" (VStr "boom"))).

(** [def raising_unwind( *args, **kwargs):
       ans = yield args, kwargs; raise ValueError("boom")] *)
Definition raising_unwind : gen_function :=
  GenFunction 7
    (fun args kwargs =>
       ret (args, kwargs,
            Generator (fun ans => raise (PyException "ValueError" (VStr "boom"))) (ret tt))).

(** [plus_one] wrapped with [negate_result], whose auxiliary output goes
    to the plain store at [l]. *)
Definition negated_plus_one (l : loc) : WrappedFun :=
  wrap (wrap_init plus_one None) negate_result [] (Some (AStore l)).

(** The scenario of two transformations: [double_args], then
    [negate_result] with its auxiliary output in the plain store at [l]. *)
Definition doubled_negated (l : loc) : WrappedFun :=
  wrap (transformation double_args (wrap_init plus_one None) []) negate_result []
       (Some (AStore l)).

(** [tracked] applied first, then a generator that raises before its
    first [yield]. *)
Definition tracked_then_raising_gen : WrappedFun :=
  transformation tracked (transformation raising_gen (wrap_init plus_one None) []) [].

(** [tracked] around a function that raises. *)
Definition tracked_raising_fun : WrappedFun :=
  transformation tracked (wrap_init raising_fun None) [].

(** [tracked] applied first, then a generator that raises when resumed. *)
Definition tracked_then_raising_unwind : WrappedFun :=
  transformation tracked (transformation raising_unwind (wrap_init plus_one None) []) [].

(** [def read_mode( **kwargs): return kwargs["mode"]] *)
Definition read_mode : function :=
  Function 8
    (fun args kwargs =>
       match dict_get kwargs "mode" with
       | Some v => ret v
       | None => raise (PyException "KeyError" (VStr "mode"))
       end).

(** [tracked] applied first, then [negate_result] with its auxiliary
    output in the plain store at [l]. *)
Definition tracked_then_negated (l : loc) : WrappedFun :=
  transformation tracked (negated_plus_one l) [].

Definition default_config : config_t := MkConfig false false VNone VNone.

(** A hash of the hashed tuple that looks at each of its five parts. *)
Definition sample_hash : PyHash :=
  fun t =>
    match t with
    | (fid, ts, ps, it, di) =>
        (Z.of_nat fid + 31 * Z.of_nat (length ts) + 961 * Z.of_nat (length ps)
         + match it with Some _ => 7 | None => 0 end
         + match di with Some _ => 11 | None => 0 end)%Z
    end.

(** [lambda fun, *args: fun.call_wrapped( *args)], the function that
    [cache] decorates in the examples. *)
Definition call_it `{PyEq} (fun_ : WrappedFun) (args : list value) : py value :=
  call_wrapped fun_ args [].

(** ** annotate *)

Section Annotate.

(** [_check_input_type] asserts that [in_type] is well formed, in terms of
    the classes of [jax.core], which are outside this module; it is taken
    as given and may raise. *)
Variable _check_input_type : value -> py unit.

(** [annotate] *)
Definition annotate (f0 : WrappedFun) (in_type0 : option value) : py WrappedFun :=
  match in_type f0 with
  | Some _ => raise (PyException "AssertionError" VNone)
  | None =>
      match in_type0 with
      | None => ret f0
      | Some t =>
          let* _ := _check_input_type t in
          ret (MkWrappedFun (f f0) (transforms f0) (stores f0) (params f0)
                            (Some t) (debug_info f0))
      end
  end.

End Annotate.

(** The order [sorted] puts the items in. *)
Definition key_le (a b : string * value) : Prop := String.leb (fst a) (fst b) = true.

(** ** More concrete values *)

(** The names in the global list [closed]. *)
Definition closed_names (w : world) : list value :=
  match globals w !! "closed" with
  | Some (VTuple names) => names
  | _ => []
  end.

(** [closed.append(name)] *)
Definition log_closed (name : value) : py unit :=
  fun w =>
    (Ok tt, set_globals (insert "closed" (VTuple (closed_names w ++ [name]))) w).

(** [def logged(name, *args, **kwargs):
       try: ans = yield args, kwargs
       except GeneratorExit: closed.append(name); raise
       yield ans] *)
Definition logged : gen_function :=
  GenFunction 9
    (fun args kwargs =>
       match args with
       | name :: args' =>
           ret (args', kwargs, Generator (fun ans => ret ans) (log_closed name))
       | [] => raise (PyException "TypeError" VNone)
       end).

(** [plus_one] wrapped with [negate_result], whose auxiliary output goes
    to the [EqualStore] at [l]. *)
Definition negated_plus_one_eq (l : loc) : WrappedFun :=
  wrap (wrap_init plus_one None) negate_result [] (Some (AnEqualStore l)).

(** A state in which the one store made so far, at address 0, holds
    nothing. *)
Definition one_store_world : world := World ∅ 1 ∅.

(** An [==] that always raises. *)
Definition never_comparable : PyEq := fun _ _ => None.

Definition sample_debug_info : TracingDebugInfo :=
  MkTracingDebugInfo "jit" "plus_one at example.py:1" ["x"] None.

(** [negated_plus_one l] with debug info attached. *)
Definition negated_plus_one_traced (l : loc) : WrappedFun :=
  MkWrappedFun (f (negated_plus_one l)) (transforms (negated_plus_one l))
               (stores (negated_plus_one l)) (params (negated_plus_one l))
               (in_type (negated_plus_one l)) (Some sample_debug_info).

(** A check of [in_type] that accepts tuples only. *)
Definition tuples_only (t : value) : py unit :=
  match t with
  | VTuple _ => ret tt
  | _ => raise (PyException "AssertionError" VNone)
  end.

(** * Properties *)

(** ** The effect monad *)

Lemma bind_run {A B} (c : py A) (k : A -> py B) (w : world) :
  bind c k w =
  match c w with
  | (Ok a, w') => k a w'
  | (Raise e, w') => (Raise e, w')
  end.
Proof. reflexivity. Qed.

Lemma try_except_run {A} (c : py A) (h : exn -> py A) (w : world) :
  try_except c h w =
  match c w with
  | (Ok a, w') => (Ok a, w')
  | (Raise e, w') => h e w'
  end.
Proof. reflexivity. Qed.

(** ** Equalities *)

Lemma value_eqb_refl (v : value) : value_eqb v v = true.
Proof.
  revert v. fix IH 1. intros [ | b | z | s | vs ]; simpl.
  - reflexivity.
  - apply Bool.eqb_reflx.
  - apply Z.eqb_refl.
  - apply String.eqb_refl.
  - induction vs as [ | x xs IHxs ]; [ reflexivity | ].
    rewrite (IH x). exact IHxs.
Qed.

Lemma list_eqb_refl {A} (eqb : A -> A -> bool) (l : list A) :
  (forall x, eqb x x = true) -> list_eqb eqb l l = true.
Proof.
  intros Hrefl. induction l as [ | x l IHl ]; simpl; [ reflexivity | ].
  rewrite Hrefl. exact IHl.
Qed.

Lemma option_eqb_refl {A} (eqb : A -> A -> bool) (o : option A) :
  (forall x, eqb x x = true) -> option_eqb eqb o o = true.
Proof. intros Hrefl. destruct o; simpl; auto. Qed.

Lemma transform_eqb_refl (t : gen_function * list value) : transform_eqb t t = true.
Proof.
  unfold transform_eqb. now rewrite Nat.eqb_refl, value_eqb_refl.
Qed.

Lemma param_eqb_refl (p : string * value) : param_eqb p p = true.
Proof. unfold param_eqb. now rewrite String.eqb_refl, value_eqb_refl. Qed.

Lemma debug_info_eqb_refl (d : TracingDebugInfo) : debug_info_eqb d d = true.
Proof.
  unfold debug_info_eqb.
  rewrite !String.eqb_refl, (list_eqb_refl _ _ String.eqb_refl),
    (option_eqb_refl _ _ Nat.eqb_refl).
  reflexivity.
Qed.

Lemma key_transform_eqb_refl (t : nat * list value) : key_transform_eqb t t = true.
Proof.
  unfold key_transform_eqb. now rewrite Nat.eqb_refl, value_eqb_refl.
Qed.

Lemma cache_key_eqb_refl (k : cache_key) : cache_key_eqb k k = true.
Proof.
  destruct k as [[[[[[ts ps] it] args] x] d] c]. unfold cache_key_eqb.
  rewrite (list_eqb_refl _ _ key_transform_eqb_refl), (list_eqb_refl _ _ param_eqb_refl),
    (option_eqb_refl _ _ value_eqb_refl), !value_eqb_refl, Bool.eqb_reflx.
  reflexivity.
Qed.

Lemma transforms_key_eqb (ts1 ts2 : list (gen_function * list value)) :
  transforms_key ts1 = transforms_key ts2 -> list_eqb transform_eqb ts1 ts2 = true.
Proof.
  revert ts2. induction ts1 as [ | [g1 a1] ts1 IH ]; intros [ | [g2 a2] ts2 ]; simpl;
    intros Hk; try discriminate; [ reflexivity | ].
  injection Hk as Hid Hargs Hrest.
  unfold transform_eqb; simpl fst; simpl snd.
  rewrite Hid, Hargs, Nat.eqb_refl, value_eqb_refl. simpl. now apply IH.
Qed.

(** ** Store and EqualStore *)

Lemma Store_val_occupied (self : loc) (v : value) (w : world) :
  store_vals w !! self = Some v -> Store.val self w = (Ok v, w).
Proof.
  intros Hv. unfold Store.val, bind, Store.nonzero. rewrite Hv.
  rewrite bool_decide_eq_true_2 by eauto. simpl. now rewrite Hv.
Qed.

Lemma Store_val_empty (self : loc) (w : world) :
  store_vals w !! self = None ->
  Store.val self w = (Raise (StoreException "Store empty"), w).
Proof.
  intros Hv. unfold Store.val, bind, Store.nonzero. rewrite Hv.
  rewrite bool_decide_eq_false_2 by (intros [x Hx]; discriminate). reflexivity.
Qed.

Lemma Store_store_empty (self : loc) (v : value) (w : world) :
  store_vals w !! self = None ->
  Store.store self v w = (Ok tt, set_store_vals (insert self v) w).
Proof. intros Hv. unfold Store.store. now rewrite Hv. Qed.

Lemma Store_store_occupied (self : loc) (held v : value) (w : world) :
  store_vals w !! self = Some held ->
  Store.store self v w = (Raise (StoreException "Store occupied"), w).
Proof. intros Hv. unfold Store.store. now rewrite Hv. Qed.

Lemma stored_lookup (self : loc) (v : value) (w : world) :
  store_vals (set_store_vals (insert self v) w) !! self = Some v.
Proof. simpl. apply lookup_insert_eq. Qed.

(** C6.  On a plain [Store] that holds nothing, [val] raises
    [StoreException("Store empty")]; [store(v1)] succeeds, and a following
    [store(v2)] raises [StoreException("Store occupied")] and leaves [v1] in
    place, whatever [v1] and [v2] are. *)
Theorem Store_single_write (self : loc) (v1 v2 : value) (w : world) :
  store_vals w !! self = None ->
  Store.val self w = (Raise (StoreException "Store empty"), w)
  /\ Store.store self v1 w = (Ok tt, set_store_vals (insert self v1) w)
  /\ Store.store self v2 (set_store_vals (insert self v1) w)
     = (Raise (StoreException "Store occupied"), set_store_vals (insert self v1) w)
  /\ Store.val self (set_store_vals (insert self v1) w)
     = (Ok v1, set_store_vals (insert self v1) w).
Proof.
  intros Hempty. split; [ now apply Store_val_empty | ].
  split; [ now apply Store_store_empty | ].
  split.
  - apply Store_store_occupied with (held := v1). apply stored_lookup.
  - apply Store_val_occupied, stored_lookup.
Qed.

(** C5.  On an [EqualStore] that holds nothing, [store(v)] succeeds; a
    following [store(v')] with [v == v'] true succeeds and changes
    nothing, and a following [store(u)] with [v == u] false raises
    [StoreException("Store occupied with not-equal value")] and changes
    nothing: [v] stays in place. *)
Theorem EqualStore_store_equal_or_conflict `{PyEq} (self : loc) (v v' u : value) (w : world) :
  store_vals w !! self = None ->
  py_eq v v' = Some true ->
  py_eq v u = Some false ->
  EqualStore.store self v w = (Ok tt, set_store_vals (insert self v) w)
  /\ EqualStore.store self v' (set_store_vals (insert self v) w)
     = (Ok tt, set_store_vals (insert self v) w)
  /\ EqualStore.store self u (set_store_vals (insert self v) w)
     = (Raise (StoreException "Store occupied with not-equal value"),
        set_store_vals (insert self v) w)
  /\ EqualStore.val self (set_store_vals (insert self v) w)
     = (Ok v, set_store_vals (insert self v) w).
Proof.
  intros Hempty Heq Hne.
  pose proof (stored_lookup self v w) as Hheld.
  repeat split.
  - unfold EqualStore.store, try_except. now rewrite Store_store_empty.
  - unfold EqualStore.store, try_except.
    rewrite (Store_store_occupied _ v) by exact Hheld.
    rewrite Hheld, Heq. reflexivity.
  - unfold EqualStore.store, try_except.
    rewrite (Store_store_occupied _ v) by exact Hheld.
    rewrite Hheld, Hne. reflexivity.
  - unfold EqualStore.val. now apply Store_val_occupied.
Qed.

(** C10.  On a plain [Store] that holds nothing, [store(v)] followed by
    a second [store] of [v] itself, or of a value [v'] with [v == v'] true,
    raises [StoreException("Store occupied")]; an [EqualStore] in the same
    state accepts that second [store]. *)
Theorem Store_second_store_equal_value `{PyEq} (self : loc) (v v' : value) (w : world) :
  store_vals w !! self = None ->
  py_eq v v' = Some true ->
  Store.store self v w = (Ok tt, set_store_vals (insert self v) w)
  /\ Store.store self v (set_store_vals (insert self v) w)
     = (Raise (StoreException "Store occupied"), set_store_vals (insert self v) w)
  /\ Store.store self v' (set_store_vals (insert self v) w)
     = (Raise (StoreException "Store occupied"), set_store_vals (insert self v) w)
  /\ EqualStore.store self v' (set_store_vals (insert self v) w)
     = (Ok tt, set_store_vals (insert self v) w).
Proof.
  intros Hempty Heq.
  pose proof (stored_lookup self v w) as Hheld.
  repeat split.
  - now apply Store_store_empty.
  - now apply Store_store_occupied with (held := v).
  - now apply Store_store_occupied with (held := v).
  - unfold EqualStore.store, try_except.
    rewrite (Store_store_occupied _ v) by exact Hheld.
    rewrite Hheld, Heq. reflexivity.
Qed.

Lemma Store_single_write_witness :
  store_vals empty_world !! 0 = None
  /\ Store.val 0 empty_world = (Raise (StoreException "Store empty"), empty_world)
  /\ Store.store 0 (VInt 1) (set_store_vals (insert 0 (VInt 1)) empty_world)
     = (Raise (StoreException "Store occupied"),
        set_store_vals (insert 0 (VInt 1)) empty_world).
Proof.
  assert (Hempty : store_vals empty_world !! 0 = None) by reflexivity.
  destruct (Store_single_write 0 (VInt 1) (VInt 1) empty_world Hempty)
    as (Hval & _ & Hsecond & _).
  exact (conj Hempty (conj Hval Hsecond)).
Defined.

Lemma EqualStore_store_equal_or_conflict_witness :
  @EqualStore.store structural_eq 0 (VInt 1) (set_store_vals (insert 0 (VInt 1)) empty_world)
  = (Ok tt, set_store_vals (insert 0 (VInt 1)) empty_world)
  /\ @EqualStore.store structural_eq 0 (VInt 2) (set_store_vals (insert 0 (VInt 1)) empty_world)
     = (Raise (StoreException "Store occupied with not-equal value"),
        set_store_vals (insert 0 (VInt 1)) empty_world).
Proof.
  destruct (@EqualStore_store_equal_or_conflict structural_eq 0 (VInt 1) (VInt 1) (VInt 2)
              empty_world eq_refl eq_refl eq_refl) as (_ & Hsame & Hother & _).
  exact (conj Hsame Hother).
Defined.

Lemma Store_second_store_equal_value_witness :
  Store.store 0 (VStr "a") (set_store_vals (insert 0 (VStr "a")) empty_world)
  = (Raise (StoreException "Store occupied"),
     set_store_vals (insert 0 (VStr "a")) empty_world)
  /\ @EqualStore.store structural_eq 0 (VStr "a")
       (set_store_vals (insert 0 (VStr "a")) empty_world)
     = (Ok tt, set_store_vals (insert 0 (VStr "a")) empty_world).
Proof.
  destruct (@Store_second_store_equal_value structural_eq 0 (VStr "a") (VStr "a")
              empty_world eq_refl eq_refl) as (_ & Hplain & _ & Hequal).
  exact (conj Hplain Hequal).
Defined.

(** ** merge_linear_aux *)

Lemma out_store_val_lookup (s : store_obj) (w : world) :
  out_store_val s w =
  match store_vals w !! store_loc s with
  | Some v => (Ok v, w)
  | None => (Raise (StoreException "Store empty"), w)
  end.
Proof.
  destruct s as [l | l]; simpl; unfold EqualStore.val;
    destruct (store_vals w !! l) as [v | ] eqn:Hl.
  - now apply Store_val_occupied.
  - now apply Store_val_empty.
  - now apply Store_val_occupied.
  - now apply Store_val_empty.
Qed.

(** C7.  For the accessors of two stores, [merge_linear_aux] returns
    [(True, v)] when only the first store holds a value [v], [(False, v)]
    when only the second does, raises [StoreException("neither store
    occupied")] when neither does and [StoreException("both stores
    occupied")] when both do; the state is left as it was. *)
Theorem merge_linear_aux_occupancy (s1 s2 : store_obj) (w : world) :
  merge_linear_aux (out_store_val s1) (out_store_val s2) w =
  (match store_vals w !! store_loc s1, store_vals w !! store_loc s2 with
   | Some v, None => Ok (VTuple [VBool true; v])
   | None, Some v => Ok (VTuple [VBool false; v])
   | None, None => Raise (StoreException "neither store occupied")
   | Some _, Some _ => Raise (StoreException "both stores occupied")
   end, w).
Proof.
  unfold merge_linear_aux, try_StoreException.
  rewrite (out_store_val_lookup s1 w).
  destruct (store_vals w !! store_loc s1) as [v1 | ] eqn:H1;
    rewrite (out_store_val_lookup s2 w);
    destruct (store_vals w !! store_loc s2) as [v2 | ] eqn:H2; reflexivity.
Qed.

(** ** wrap, equality and hash *)

(** C9.  [wrap] returns a wrapped function with [in_type] and [debug_info]
    both [None], whatever they were, with the same [f] and [params], and
    with one more transform and one more store, both put first. *)
Theorem wrap_resets_in_type_and_debug_info (self : WrappedFun) (gen : gen_function)
    (gen_static_args : list value) (out_store : option store_obj) :
  in_type (wrap self gen gen_static_args out_store) = None
  /\ debug_info (wrap self gen gen_static_args out_store) = None
  /\ f (wrap self gen gen_static_args out_store) = f self
  /\ params (wrap self gen gen_static_args out_store) = params self
  /\ transforms (wrap self gen gen_static_args out_store)
     = (gen, gen_static_args) :: transforms self
  /\ stores (wrap self gen gen_static_args out_store) = out_store :: stores self
  /\ length (transforms (wrap self gen gen_static_args out_store))
     = S (length (transforms self))
  /\ length (stores (wrap self gen gen_static_args out_store)) = S (length (stores self)).
Proof. repeat split. Qed.

(** C8.  Two wrapped functions that agree on [f], [transforms], [params],
    [in_type] and [debug_info] (functions and generator functions by
    identity) compare equal and have the same hash, whatever their
    [stores] are. *)
Theorem WrappedFun_eq_hash_ignore_stores `{PyHash} (self other : WrappedFun) :
  fun_id (f self) = fun_id (f other) ->
  transforms_key (transforms self) = transforms_key (transforms other) ->
  params self = params other ->
  in_type self = in_type other ->
  debug_info self = debug_info other ->
  WrappedFun_eq self other = true /\ WrappedFun_hash self = WrappedFun_hash other.
Proof.
  intros Hf Hts Hps Hit Hdi. split.
  - unfold WrappedFun_eq.
    rewrite Hf, Nat.eqb_refl, (transforms_key_eqb _ _ Hts), Hps, Hit, Hdi.
    rewrite (list_eqb_refl _ _ param_eqb_refl), (option_eqb_refl _ _ value_eqb_refl),
      (option_eqb_refl _ _ debug_info_eqb_refl).
    reflexivity.
  - unfold WrappedFun_hash. now rewrite Hf, Hts, Hps, Hit, Hdi.
Qed.

Lemma WrappedFun_eq_hash_ignore_stores_witness :
  stores (negated_plus_one 0) <> stores (negated_plus_one 1)
  /\ WrappedFun_eq (negated_plus_one 0) (negated_plus_one 1) = true
  /\ @WrappedFun_hash sample_hash (negated_plus_one 0)
     = @WrappedFun_hash sample_hash (negated_plus_one 1).
Proof.
  split; [ discriminate | ].
  exact (@WrappedFun_eq_hash_ignore_stores sample_hash (negated_plus_one 0)
           (negated_plus_one 1) eq_refl eq_refl eq_refl eq_refl eq_refl).
Defined.

(** ** Keyword arguments and static parameters *)

Lemma dict_get_set (d : kwargs_t) (k k' : string) (v : value) :
  dict_get (dict_set d k v) k' = if String.eqb k k' then Some v else dict_get d k'.
Proof.
  induction d as [ | [k0 v0] d IH ]; simpl.
  - reflexivity.
  - destruct (String.eqb k0 k) eqn:Hk0; simpl.
    + apply String.eqb_eq in Hk0. subst k0.
      destruct (String.eqb k k'); reflexivity.
    + destruct (String.eqb k0 k') eqn:Hk0'.
      * apply String.eqb_eq in Hk0'. subst k0.
        rewrite String.eqb_sym in Hk0. now rewrite Hk0.
      * exact IH.
Qed.

Lemma dict_update_snoc (d items : kwargs_t) (kv : string * value) :
  dict_update d (items ++ [kv])%list = dict_set (dict_update d items) (fst kv) (snd kv).
Proof. unfold dict_update. now rewrite fold_left_app. Qed.

Lemma dict_get_update (d items : kwargs_t) (k : string) :
  dict_get (dict_update d items) k =
  match dict_get (dict_update [] items) k with
  | Some v => Some v
  | None => dict_get d k
  end.
Proof.
  induction items as [ | kv items IH ] using rev_ind.
  - reflexivity.
  - rewrite !dict_update_snoc, !dict_get_set.
    destruct (String.eqb (fst kv) k); [ reflexivity | exact IH ].
Qed.

Lemma dict_get_app (d1 d2 : kwargs_t) (k : string) :
  dict_get (d1 ++ d2)%list k =
  match dict_get d1 k with
  | Some v => Some v
  | None => dict_get d2 k
  end.
Proof.
  induction d1 as [ | [k0 v0] d1 IH ]; simpl; [ reflexivity | ].
  destruct (String.eqb k0 k); [ reflexivity | exact IH ].
Qed.

Lemma dict_get_not_key (d : kwargs_t) (k : string) :
  ~ In k (map fst d) -> dict_get d k = None.
Proof.
  induction d as [ | [k0 v0] d IH ]; simpl; intros Hnot; [ reflexivity | ].
  destruct (String.eqb k0 k) eqn:Hk0.
  - apply String.eqb_eq in Hk0. tauto.
  - apply IH. tauto.
Qed.

(** A dict with distinct keys is what filling a new dict with its items
    gives back, as far as lookups go. *)
Lemma dict_get_of_items (d : kwargs_t) (k : string) :
  List.NoDup (map fst d) -> dict_get (dict_update [] d) k = dict_get d k.
Proof.
  induction d as [ | kv d IH ] using rev_ind; intros Hnd; [ reflexivity | ].
  rewrite dict_update_snoc, dict_get_set, dict_get_app.
  rewrite map_app in Hnd. simpl in Hnd.
  apply NoDup_remove in Hnd. destruct Hnd as [Hnd Hnot]. rewrite app_nil_r in Hnd, Hnot.
  rewrite IH by exact Hnd.
  destruct kv as [k0 v0]; simpl.
  destruct (String.eqb k0 k) eqn:Hk0.
  - apply String.eqb_eq in Hk0. subst k0. now rewrite dict_get_not_key.
  - now destruct (dict_get d k).
Qed.

(** C2.  When the transformations have rewritten the arguments to
    [(args1, kwargs1)], [call_wrapped] goes on by calling [f] on [args1]
    and the dict [dict(params, **kwargs1)]; that dict is built without an
    error, and looking a key up in it gives the keyword argument of that
    name if there is one and else the static parameter of that name. *)
Theorem call_wrapped_kwargs_override_params `{PyEq} (self : WrappedFun)
    (args args1 : list value) (kwargs kwargs1 : kwargs_t)
    (stack : list (generator * option store_obj)) (w w1 : world) :
  apply_transforms (zip (transforms self) (stores self)) args kwargs [] w
  = (Ok (args1, kwargs1, stack), w1) ->
  List.NoDup (map fst kwargs1) ->
  call_wrapped self args kwargs w
  = bind (try_except (fun_run (f self) args1 (dict_of (params self) kwargs1))
            (fun e => bind (close_all stack) (fun _ => raise e)))
         (unwind stack) w1
  /\ forall k : string,
       dict_get (dict_of (params self) kwargs1) k =
       match dict_get kwargs1 k with
       | Some v => Some v
       | None => dict_get (dict_update [] (params self)) k
       end.
Proof.
  intros Happly Hdict. split.
  - unfold call_wrapped. unfold bind at 1. now rewrite Happly.
  - intros k. unfold dict_of. rewrite dict_get_update.
    now rewrite (dict_get_of_items kwargs1 k Hdict).
Qed.

Lemma call_wrapped_kwargs_override_params_witness :
  @call_wrapped structural_eq (wrap_init read_mode (Some [("mode", VInt 1)])) []
    [("mode", VInt 2)] empty_world
  = (Ok (VInt 2), empty_world)
  /\ dict_get (dict_of (params (wrap_init read_mode (Some [("mode", VInt 1)])))
                 [("mode", VInt 2)]) "mode"
     = Some (VInt 2).
Proof.
  destruct (@call_wrapped_kwargs_override_params structural_eq
              (wrap_init read_mode (Some [("mode", VInt 1)])) [] []
              [("mode", VInt 2)] [("mode", VInt 2)] [] empty_world empty_world eq_refl)
    as [Hcall Hget].
  - repeat constructor. simpl. tauto.
  - split; [ rewrite Hcall; reflexivity | exact (Hget "mode") ].
Defined.

(** ** The composition law *)

Lemma wrap_all_fields (ts : list wrapping) (fun_ : WrappedFun) :
  f (wrap_all fun_ ts) = f fun_
  /\ params (wrap_all fun_ ts) = params fun_
  /\ transforms (wrap_all fun_ ts) = (rev (map fst ts) ++ transforms fun_)%list
  /\ stores (wrap_all fun_ ts) = (rev (map snd ts) ++ stores fun_)%list.
Proof.
  revert fun_. induction ts as [ | t ts IH ]; intros fun_.
  - repeat split.
  - destruct (IH (wrap fun_ (fst (fst t)) (snd (fst t)) (snd t))) as (Hf & Hp & Ht & Hs).
    change (wrap_all fun_ (t :: ts))
      with (wrap_all (wrap fun_ (fst (fst t)) (snd (fst t)) (snd t)) ts).
    rewrite Hf, Hp, Ht, Hs. simpl.
    rewrite <- !app_assoc. simpl. destruct t as [[g a] s]. repeat split.
Qed.

Lemma zip_fst_snd {A B} (l : list (A * B)) : zip (map fst l) (map snd l) = l.
Proof. induction l as [ | [a b] l IH ]; simpl; [ reflexivity | now rewrite IH ]. Qed.

(** The entries that [call_wrapped] walks through, for a function wrapped
    with [ts] from no transformation at all: [ts] from its last to its
    first. *)
Lemma wrap_all_entries (ts : list wrapping) (fun_ : WrappedFun) :
  transforms fun_ = [] -> stores fun_ = [] ->
  zip (transforms (wrap_all fun_ ts)) (stores (wrap_all fun_ ts)) = rev ts.
Proof.
  intros Ht Hs. destruct (wrap_all_fields ts fun_) as (_ & _ & Ht' & Hs').
  rewrite Ht', Hs', Ht, Hs, !app_nil_r, <- !map_rev. apply zip_fst_snd.
Qed.

Section CompositionLaw.
Context `{PyEq}.

(** The first loop pushes what [rewrite_args] returns, last started
    first, and fails where it fails. *)
Lemma apply_transforms_rewrite_args (ts : list wrapping) :
  forall (args : list value) (kwargs : kwargs_t)
         (stack : list (generator * option store_obj)) (w : world),
    apply_transforms ts args kwargs stack w =
    match rewrite_args ts args kwargs w with
    | (Ok (args1, kwargs1, gs), w1) => (Ok (args1, kwargs1, (rev gs ++ stack)%list), w1)
    | (Raise e, w1) => (Raise e, w1)
    end.
Proof.
  induction ts as [ | [[gen gen_static_args] out_store] ts IH ];
    intros args kwargs stack w; simpl.
  - reflexivity.
  - rewrite !bind_run.
    destruct (gen_run gen (gen_static_args ++ args)%list kwargs w)
      as [[[[args1 kwargs1] g] | e] w1]; [ | reflexivity ].
    rewrite IH, bind_run.
    destruct (rewrite_args ts args1 kwargs1 w1) as [[[[args2 kwargs2] gs] | e] w2];
      [ | reflexivity ].
    simpl. now rewrite <- app_assoc.
Qed.

Lemma close_all_then_raise (stack : list (generator * option store_obj)) (e : exn)
    (w : world) :
  exists e' w', bind (close_all stack) (fun _ => raise (A:=value) e) w = (Raise e', w').
Proof.
  rewrite bind_run. destruct (close_all stack w) as [[u | e0] w0]; eauto.
Qed.

(** The second loop returns what the result phases return when they all
    succeed, and raises when one of them raises. *)
Lemma unwind_rewrite_results (stack : list (generator * option store_obj)) :
  forall (ans : value) (w : world),
    match rewrite_results stack ans w with
    | (Ok r, w1) => unwind stack ans w = (Ok r, w1)
    | (Raise _, _) => exists e' w1, unwind stack ans w = (Raise e', w1)
    end.
Proof.
  induction stack as [ | [gen out_store] stack IH ]; intros ans w; simpl.
  - reflexivity.
  - unfold rewrite_result; simpl fst; simpl snd.
    rewrite !bind_run, try_except_run.
    destruct (send gen ans w) as [[ans1 | e] w1].
    + destruct out_store as [s | ].
      * rewrite !bind_run.
        destruct (unpack2 ans1 w1) as [[[ans2 side] | e] w2]; [ | eauto ].
        rewrite !bind_run.
        destruct (out_store_store s side w2) as [[[] | e] w3]; [ | eauto ].
        apply IH.
      * apply IH.
    + destruct (close_all_then_raise stack e w1) as (e' & w' & Hclose).
      rewrite Hclose. eauto.
Qed.

End CompositionLaw.

(** C1.  For a function [f0] wrapped with [T1, ..., Tn] in that order,
    [call_wrapped] returns the result of the manual composition (the
    argument phases of [Tn, ..., T1], the call of [f0], the result phases
    of [T1, ..., Tn]) and reaches the same state whenever that composition
    returns; when the composition raises, [call_wrapped] raises too. *)
Theorem call_wrapped_manual_composition `{PyEq} (f0 : function) (params0 : option kwargs_t)
    (ts : list wrapping) (args : list value) (kwargs : kwargs_t) (w : world) :
  match manual_composition f0 (params (wrap_init f0 params0)) ts args kwargs w with
  | (Ok r, w1) =>
      call_wrapped (wrap_all (wrap_init f0 params0) ts) args kwargs w = (Ok r, w1)
  | (Raise _, _) =>
      exists e' w1,
        call_wrapped (wrap_all (wrap_init f0 params0) ts) args kwargs w = (Raise e', w1)
  end.
Proof.
  unfold call_wrapped, manual_composition.
  rewrite (wrap_all_entries ts (wrap_init f0 params0) eq_refl eq_refl).
  destruct (wrap_all_fields ts (wrap_init f0 params0)) as (Hf & Hp & _ & _).
  rewrite Hf, Hp. clear Hf Hp.
  rewrite !bind_run, apply_transforms_rewrite_args.
  destruct (rewrite_args (rev ts) args kwargs w) as [[[[args1 kwargs1] gs] | e] w1];
    [ | eauto ].
  rewrite app_nil_r, !bind_run, try_except_run.
  change (f (wrap_init f0 params0)) with f0.
  destruct (fun_run f0 args1 (dict_of (params (wrap_init f0 params0)) kwargs1) w1)
    as [[ans | e] w2].
  - apply unwind_rewrite_results.
  - destruct (close_all_then_raise (rev gs) e w2) as (e' & w' & Hclose).
    rewrite Hclose. eauto.
Qed.

(** The scenario of the two transformations [double_args] and
    [negate_result] around [plus_one], called on 3: the result is -7 and
    the auxiliary output is 7. *)
Example call_wrapped_doubled_negated :
  @call_wrapped structural_eq (doubled_negated 0) [VInt 3] [] empty_world
  = (Ok (VInt (-7)), set_store_vals (insert 0 (VInt 7)) empty_world)
  /\ doubled_negated 0
     = wrap_all (wrap_init plus_one None)
         [((double_args, []), None); ((negate_result, []), Some (AStore 0))].
Proof. split; reflexivity. Qed.

(** ** Cleanup when a call fails *)

Section Cleanup.
Context `{PyEq}.

(** When [f] raises, the suspended generators are closed from the last
    pushed to the first, and the exception is raised again after the last
    [close] (an exception out of a [close] takes its place and ends the
    closing). *)
Lemma call_wrapped_function_raises (self : WrappedFun) (args args1 : list value)
    (kwargs kwargs1 : kwargs_t) (stack : list (generator * option store_obj))
    (e : exn) (w w1 w2 : world) :
  apply_transforms (zip (transforms self) (stores self)) args kwargs [] w
  = (Ok (args1, kwargs1, stack), w1) ->
  fun_run (f self) args1 (dict_of (params self) kwargs1) w1 = (Raise e, w2) ->
  call_wrapped self args kwargs w = bind (close_all stack) (fun _ => raise e) w2.
Proof.
  intros Happly Hf. unfold call_wrapped.
  rewrite bind_run, Happly, bind_run, try_except_run, Hf.
  rewrite !bind_run. now destruct (close_all stack w2) as [[u | e0] w3].
Qed.

(** The same when a generator raises on being resumed: the generators
    still on the stack are closed, last pushed first. *)
Lemma unwind_send_raises (gen : generator) (out_store : option store_obj)
    (stack : list (generator * option store_obj)) (ans : value) (e : exn) (w w1 : world) :
  send gen ans w = (Raise e, w1) ->
  unwind ((gen, out_store) :: stack) ans w = bind (close_all stack) (fun _ => raise e) w1.
Proof.
  intros Hsend. simpl. rewrite bind_run, try_except_run, Hsend.
  rewrite !bind_run. now destruct (close_all stack w1) as [[u | e0] w2].
Qed.

(** No [close] happens when a generator raises in the first loop: the
    exception leaves [call_wrapped] from the state the generator reached. *)
Lemma apply_transforms_raises (gen : gen_function) (gen_static_args args : list value)
    (out_store : option store_obj) (entries : list wrapping) (kwargs : kwargs_t)
    (stack : list (generator * option store_obj)) (e : exn) (w w1 : world) :
  gen_run gen (gen_static_args ++ args)%list kwargs w = (Raise e, w1) ->
  apply_transforms (((gen, gen_static_args), out_store) :: entries) args kwargs stack w
  = (Raise e, w1).
Proof. intros Hrun. simpl. now rewrite bind_run, Hrun. Qed.

End Cleanup.

(** C4.  The wrapped function [tracked_then_raising_gen] starts [tracked],
    which adds one to the counter and is suspended, and then a generator
    that raises before its first [yield]: the exception reaches the caller
    with the counter still at 1, so [tracked] was not closed.  When the
    function raises, or a generator raises on being resumed, [tracked] is
    closed and the counter is back at 0; when a store refuses the auxiliary
    output in the second loop, [tracked] is again left suspended. *)
Theorem call_wrapped_first_loop_failure_not_closed :
  (let r := @call_wrapped structural_eq tracked_then_raising_gen [VInt 3] [] empty_world in
   fst r = Raise (PyException "ValueError" (VStr "boom")) /\ counter_of (snd r) = 1%Z)
  /\ (let r := @call_wrapped structural_eq tracked_raising_fun [VInt 3] [] empty_world in
      fst r = Raise (PyException "ValueError" (VStr "boom")) /\ counter_of (snd r) = 0%Z)
  /\ (let r := @call_wrapped structural_eq tracked_then_raising_unwind [VInt 3] []
                 empty_world in
      fst r = Raise (PyException "ValueError" (VStr "boom")) /\ counter_of (snd r) = 0%Z)
  /\ (let r := @call_wrapped structural_eq (tracked_then_negated 0) [VInt 3] []
                 (set_store_vals (insert 0 (VInt 9)) empty_world) in
      fst r = Raise (StoreException "Store occupied") /\ counter_of (snd r) = 1%Z).
Proof. repeat split; vm_compute; reflexivity. Qed.

(** ** The memoization cache *)

(** *** Equal keys *)

Lemma value_eqb_tuple (xs ys : list value) :
  value_eqb (VTuple xs) (VTuple ys) = list_eqb value_eqb xs ys.
Proof.
  revert ys. induction xs as [ | x xs IH ]; intros [ | y ys ]; try reflexivity.
  simpl in *. now rewrite IH.
Qed.

(** Two values are equal when their representatives are the same. *)
Lemma value_eqb_canonical : forall a b : value,
  value_eqb a b = true <-> canonical a = canonical b.
Proof.
  fix IH 1.
  intros [ | x | x | x | xs ] [ | y | y | y | ys ]; simpl;
    try (split; [ discriminate | discriminate ]);
    try (split; [ reflexivity | reflexivity ]).
  - destruct x, y; simpl; split; congruence.
  - rewrite Z.eqb_eq. split; congruence.
  - rewrite Z.eqb_eq. split; congruence.
  - rewrite Z.eqb_eq. split; congruence.
  - rewrite String.eqb_eq. split; congruence.
  - revert ys. induction xs as [ | x xs IHxs ]; intros [ | y ys ]; simpl;
      try (split; [ discriminate | discriminate ]).
    + split; reflexivity.
    + rewrite andb_true_iff, (IH x y). specialize (IHxs ys). simpl in IHxs.
      rewrite IHxs. split.
      * intros [Hx Hxs]. injection Hxs as Hxs. now rewrite Hx, Hxs.
      * intros Heq. injection Heq as Hx Hxs. split; [ exact Hx | now rewrite Hxs ].
Qed.

Section Canonical.
Context {A B : Type} (eqb : A -> A -> bool) (g : A -> B).
Hypothesis eqb_canonical : forall x y, eqb x y = true <-> g x = g y.

Lemma canonical_sym (x y : A) : eqb x y = eqb y x.
Proof.
  destruct (eqb x y) eqn:Hxy, (eqb y x) eqn:Hyx; try reflexivity.
  - apply eqb_canonical in Hxy. symmetry in Hxy. apply eqb_canonical in Hxy. congruence.
  - apply eqb_canonical in Hyx. symmetry in Hyx. apply eqb_canonical in Hyx. congruence.
Qed.

Lemma canonical_trans (x y z : A) : eqb x y = true -> eqb y z = true -> eqb x z = true.
Proof. rewrite !eqb_canonical. congruence. Qed.

(** Equal items give the same answers. *)
Lemma canonical_same (k k' k0 : A) : eqb k k' = true -> eqb k0 k = eqb k0 k'.
Proof.
  intros Hk. apply eqb_canonical in Hk.
  destruct (eqb k0 k) eqn:H1, (eqb k0 k') eqn:H2; try reflexivity.
  - apply eqb_canonical in H1. rewrite Hk in H1. apply eqb_canonical in H1. congruence.
  - apply eqb_canonical in H2. rewrite <- Hk in H2. apply eqb_canonical in H2. congruence.
Qed.

Lemma list_eqb_canonical (xs ys : list A) :
  list_eqb eqb xs ys = true <-> map g xs = map g ys.
Proof.
  revert ys. induction xs as [ | x xs IH ]; intros [ | y ys ]; simpl;
    try (split; [ discriminate | discriminate ]).
  - split; reflexivity.
  - rewrite andb_true_iff, eqb_canonical, IH. split.
    + intros [-> ->]. reflexivity.
    + intros Heq. injection Heq as Hx Hxs. auto.
Qed.

Lemma option_eqb_canonical (x y : option A) :
  option_eqb eqb x y = true <-> option_map g x = option_map g y.
Proof.
  destruct x, y; simpl; try (split; [ discriminate | discriminate ]).
  - rewrite eqb_canonical. split; congruence.
  - split; reflexivity.
Qed.

End Canonical.

Lemma key_transform_eqb_canonical (a b : nat * list value) :
  key_transform_eqb a b = true <-> canonical_transform a = canonical_transform b.
Proof.
  destruct a as [ia aa], b as [ib ab].
  unfold key_transform_eqb, canonical_transform. simpl fst. simpl snd.
  rewrite andb_true_iff, Nat.eqb_eq, value_eqb_tuple,
    (list_eqb_canonical value_eqb canonical value_eqb_canonical).
  split; [ intros [-> ->]; reflexivity | intros [= -> ->]; auto ].
Qed.

Lemma param_eqb_canonical (a b : string * value) :
  param_eqb a b = true <-> canonical_param a = canonical_param b.
Proof.
  destruct a as [ka va], b as [kb vb]. unfold param_eqb, canonical_param. simpl.
  rewrite andb_true_iff, String.eqb_eq, value_eqb_canonical.
  split; [ intros [-> ->]; reflexivity | intros [= -> ->]; auto ].
Qed.

(** Two keys are one key of the dict when their representatives are the
    same. *)
Lemma cache_key_eqb_canonical (a b : cache_key) :
  cache_key_eqb a b = true <-> canonical_key a = canonical_key b.
Proof.
  destruct a as [[[[[[ts1 ps1] it1] args1] x1] d1] c1].
  destruct b as [[[[[[ts2 ps2] it2] args2] x2] d2] c2].
  unfold cache_key_eqb, canonical_key.
  rewrite !andb_true_iff, value_eqb_tuple, Bool.eqb_true_iff, !value_eqb_canonical,
    (list_eqb_canonical key_transform_eqb canonical_transform key_transform_eqb_canonical),
    (list_eqb_canonical param_eqb canonical_param param_eqb_canonical),
    (option_eqb_canonical value_eqb canonical value_eqb_canonical),
    (list_eqb_canonical value_eqb canonical value_eqb_canonical).
  split.
  - intros [[[[[[-> ->] ->] ->] ->] ->] ->]. reflexivity.
  - intros [= -> -> -> -> -> -> ->]. auto 10.
Qed.

Lemma list_eqb_eq {A} (eqb : A -> A -> bool) (xs ys : list A) :
  (forall x y, eqb x y = true -> x = y) -> list_eqb eqb xs ys = true -> xs = ys.
Proof.
  intros Hsound. revert ys.
  induction xs as [ | x xs IH ]; intros [ | y ys ]; simpl; intros Heq; try discriminate.
  - reflexivity.
  - apply andb_true_iff in Heq. destruct Heq as [Hx Hxs].
    f_equal; [ now apply Hsound | now apply IH ].
Qed.

Lemma option_eqb_eq {A} (eqb : A -> A -> bool) (x y : option A) :
  (forall a b, eqb a b = true -> a = b) -> option_eqb eqb x y = true -> x = y.
Proof.
  intros Hsound. destruct x, y; simpl; intros Heq; try discriminate.
  - f_equal. now apply Hsound.
  - reflexivity.
Qed.

Lemma transforms_eqb_key_eqb (ts1 ts2 : list (gen_function * list value)) :
  list_eqb transform_eqb ts1 ts2
  = list_eqb key_transform_eqb (transforms_key ts1) (transforms_key ts2).
Proof.
  revert ts2. induction ts1 as [ | t1 ts1 IH ]; intros [ | t2 ts2 ]; simpl;
    try reflexivity.
  now rewrite IH.
Qed.

(** Wrapped functions with equal transforms, parameters and [in_type] are
    memoized under keys that are one key of the dict, for equal arguments
    and the same configuration. *)
Lemma same_parts_same_key (copy : list (nat * list value) -> list (nat * list value))
    (cfg : config_t) (fun1 fun2 : WrappedFun) (args args2 : list value) :
  (jax_check_tracer_leaks cfg = true -> copy_respects copy) ->
  list_eqb transform_eqb (transforms fun1) (transforms fun2) = true ->
  list_eqb param_eqb (params fun1) (params fun2) = true ->
  option_eqb value_eqb (in_type fun1) (in_type fun2) = true ->
  value_eqb (VTuple args) (VTuple args2) = true ->
  cache_key_eqb (make_key copy cfg fun1 args) (make_key copy cfg fun2 args2) = true.
Proof.
  intros Hcopy Hts Hps Hit Hargs. rewrite transforms_eqb_key_eqb in Hts.
  unfold make_key, cache_key_eqb.
  destruct (jax_check_tracer_leaks cfg).
  - rewrite (Hcopy eq_refl _ _ Hts), Hps, Hit, Hargs, Bool.eqb_reflx, !value_eqb_refl.
    reflexivity.
  - rewrite Hts, Hps, Hit, Hargs, Bool.eqb_reflx, !value_eqb_refl. reflexivity.
Qed.

Lemma table_get_set (cache : cache_table) (key : cache_key)
    (r : value * list (option store_obj)) :
  table_get (table_set cache key r) key = Some r.
Proof.
  induction cache as [ | [k0 r0] cache IH ]; simpl.
  - now rewrite cache_key_eqb_refl.
  - destruct (cache_key_eqb k0 key) eqn:Hk; simpl; now rewrite Hk.
Qed.

(** A lookup under a key gives what a lookup under an equal key gives. *)
Lemma table_get_equal_key (cache : cache_table) (key key' : cache_key) :
  cache_key_eqb key key' = true -> table_get cache key = table_get cache key'.
Proof.
  intros Hk. induction cache as [ | [k0 r0] cache IH ]; simpl; [ reflexivity | ].
  rewrite (canonical_same cache_key_eqb canonical_key cache_key_eqb_canonical
             key key' k0 Hk).
  now rewrite IH.
Qed.


(** *** What the stores keep *)

Lemma out_store_store_empty `{PyEq} (s : store_obj) (v : value) (w : world) :
  store_vals w !! store_loc s = None ->
  out_store_store s v w = (Ok tt, set_store_vals (insert (store_loc s) v) w).
Proof.
  destruct s as [l | l]; simpl; intros Hempty.
  - now apply Store_store_empty.
  - unfold EqualStore.store. now rewrite try_except_run, Store_store_empty.
Qed.

Lemma out_store_val_state (s : store_obj) (w : world) : snd (out_store_val s w) = w.
Proof. rewrite out_store_val_lookup. now destruct (store_vals w !! store_loc s). Qed.

Section StoresKeepValues.
Context `{PyEq}.

Lemma out_store_store_occupied_state (s : store_obj) (v held : value) (w : world) :
  store_vals w !! store_loc s = Some held -> snd (out_store_store s v w) = w.
Proof.
  intros Hheld. destruct s as [l | l]; simpl in *.
  - now rewrite (Store_store_occupied l held v w Hheld).
  - unfold EqualStore.store.
    rewrite try_except_run, (Store_store_occupied l held v w Hheld), Hheld.
    destruct (py_eq held v) as [[ | ] | ]; reflexivity.
Qed.

(** What a [store] on either class of store leaves alone: every value
    that is held, the globals and the allocator. *)
Lemma out_store_store_keeps (s : store_obj) (v : value) (w : world) :
  (forall l held, store_vals w !! l = Some held ->
                  store_vals (snd (out_store_store s v w)) !! l = Some held)
  /\ globals (snd (out_store_store s v w)) = globals w
  /\ next_store (snd (out_store_store s v w)) = next_store w.
Proof.
  destruct (store_vals w !! store_loc s) as [held0 | ] eqn:Hs.
  - rewrite (out_store_store_occupied_state s v held0 w Hs). auto.
  - rewrite (out_store_store_empty s v w Hs). simpl. repeat split.
    intros l held Hl. rewrite lookup_insert_ne; [ exact Hl | congruence ].
Qed.

Lemma populate_stores_loop_keeps (pairs : list (option store_obj * option store_obj)) :
  forall w : world,
    (forall l held, store_vals w !! l = Some held ->
                    store_vals (snd (populate_stores_loop pairs w)) !! l = Some held)
    /\ globals (snd (populate_stores_loop pairs w)) = globals w
    /\ next_store (snd (populate_stores_loop pairs w)) = next_store w.
Proof.
  induction pairs as [ | [self_store other_store] pairs IH ]; intros w.
  - simpl. auto.
  - cbn [populate_stores_loop]. destruct self_store as [s | ]; [ | apply IH ].
    rewrite bind_run.
    assert (Hread : exists r, (match other_store with
                               | Some o => out_store_val o
                               | None => raise (PyException "AttributeError" (VStr "val"))
                               end) w = (r, w)).
    { destruct other_store as [o | ]; [ | eexists; reflexivity ].
      pose proof (out_store_val_state o w) as Hst.
      destruct (out_store_val o w) as [r w0]. simpl in Hst. subst w0. eauto. }
    destruct Hread as [[v | e] Hread]; rewrite Hread; [ | simpl; auto ].
    rewrite bind_run.
    destruct (out_store_store_keeps s v w) as (Hvals & Hglob & Hnext).
    destruct (out_store_store s v w) as [[[] | e] w1]; simpl in *.
    + destruct (IH w1) as (Hvals1 & Hglob1 & Hnext1).
      split; [ | split; congruence ].
      intros l held Hl. apply Hvals1, Hvals, Hl.
    + auto.
Qed.

End StoresKeepValues.

(** *** Replaying *)

Section Replay.
Context `{PyEq}.

Lemma out_store_store_equal_held (l : loc) (held v : value) (w : world) :
  store_vals w !! l = Some held ->
  py_eq held v = Some true ->
  out_store_store (AnEqualStore l) v w = (Ok tt, w).
Proof.
  intros Hheld Heq. simpl. unfold EqualStore.store.
  now rewrite try_except_run, (Store_store_occupied l held v w Hheld), Hheld, Heq.
Qed.

(** The stores that hold nothing are the same after a value has been
    stored in a store that is not one of them. *)
Lemma empty_slot_locs_stored (l : loc) (v : value) (w : world)
    (ss : list (option store_obj)) :
  store_vals w !! l = None ->
  ~ In l (empty_slot_locs w ss) ->
  empty_slot_locs (set_store_vals (insert l v) w) ss = empty_slot_locs w ss.
Proof.
  intros Hl. induction ss as [ | [s | ] ss IH ]; simpl; intros Hnot; try tauto.
  destruct (decide (l = store_loc s)) as [-> | Hne].
  - rewrite Hl in Hnot. simpl in Hnot. tauto.
  - rewrite lookup_insert_ne by exact Hne.
    destruct (store_vals w !! store_loc s); simpl in Hnot; [ | f_equal ]; apply IH; tauto.
Qed.

Lemma replay_pair_stored (l : loc) (v : value) (w : world)
    (self_store other_store : option store_obj) :
  store_vals w !! l = None ->
  match self_store with
  | Some s => store_vals w !! store_loc s = None -> store_loc s <> l
  | None => True
  end ->
  replay_pair w self_store other_store ->
  replay_pair (set_store_vals (insert l v) w) self_store other_store.
Proof.
  intros Hl Hne. destruct self_store as [s | ]; simpl; [ | tauto ].
  intros (o & vo & Ho & Hvo & Hs). exists o, vo. split; [ exact Ho | ]. split.
  - rewrite lookup_insert_ne; [ exact Hvo | congruence ].
  - destruct Hs as [Hempty | (l' & held & Hs & Hheld & Heq)].
    + left. rewrite lookup_insert_ne; [ exact Hempty | ]. intros Heq. now apply Hne.
    + right. exists l', held. split; [ exact Hs | ]. split; [ | exact Heq ].
      rewrite lookup_insert_ne; [ exact Hheld | congruence ].
Qed.

Lemma replay_pairs_stored (l : loc) (v : value) (w : world)
    (ss : list (option store_obj)) :
  forall os : list (option store_obj),
    store_vals w !! l = None ->
    ~ In l (empty_slot_locs w ss) ->
    replay_pairs w ss os ->
    replay_pairs (set_store_vals (insert l v) w) ss os.
Proof.
  induction ss as [ | s0 ss IH ]; intros os Hl Hnot Hpairs; [ exact I | ].
  assert (Hs0 : match s0 with
                | Some s => store_vals w !! store_loc s = None -> store_loc s <> l
                | None => True
                end).
  { destruct s0 as [s | ]; [ | exact I ]. intros Hempty Heq.
    apply Hnot. simpl. rewrite Hempty. left. exact Heq. }
  assert (Hrest : ~ In l (empty_slot_locs w ss)).
  { intros Hin. apply Hnot. destruct s0 as [s | ]; simpl; [ | exact Hin ].
    destruct (store_vals w !! store_loc s); [ exact Hin | now right ]. }
  destruct os as [ | o0 os ]; simpl in Hpairs |- *; destruct Hpairs as [Hpair Hpairs];
    (split; [ now apply replay_pair_stored | now apply IH ]).
Qed.

(** The recorded store at the position of a store of the function. *)
Lemma replay_pairs_lookup (w : world) (ss : list (option store_obj)) :
  forall (os : list (option store_obj)) (i : nat) (s : store_obj),
    replay_pairs w ss os ->
    ss !! i = Some (Some s) ->
    exists o v, os !! i = Some (Some o) /\ store_vals w !! store_loc o = Some v.
Proof.
  induction ss as [ | s0 ss IH ]; intros os i s Hpairs Hi; [ discriminate | ].
  destruct os as [ | o0 os ]; simpl in Hpairs; destruct Hpairs as [Hpair Hpairs];
    destruct i as [ | i ]; simpl in Hi.
  - injection Hi as ->. destruct Hpair as (o & v & Ho & _). discriminate.
  - destruct (IH [] i s Hpairs Hi) as (o & v & Ho & _). discriminate.
  - injection Hi as ->. destruct Hpair as (o & v & -> & Hv & _). eauto.
  - exact (IH os i s Hpairs Hi).
Qed.

(** Replaying: every store of the current function ends with the value
    held by the recorded store at its position, or with the equal value
    that it held already. *)
Lemma populate_stores_loop_replays (self_stores : list (option store_obj)) :
  forall (recorded : list (option store_obj)) (w : world),
    replay_pairs w self_stores recorded ->
    List.NoDup (empty_slot_locs w self_stores) ->
    exists w',
      populate_stores_loop (zip self_stores recorded) w = (Ok tt, w')
      /\ (forall i s o v,
            self_stores !! i = Some (Some s) ->
            recorded !! i = Some (Some o) ->
            store_vals w !! store_loc o = Some v ->
            exists v', store_vals w' !! store_loc s = Some v'
                       /\ (v' = v \/ py_eq v' v = Some true)).
Proof.
  induction self_stores as [ | s0 ss IH ]; intros os w Hpairs Hnd.
  - exists w. split; [ reflexivity | ]. intros i s o v Hi. discriminate.
  - destruct os as [ | o0 os ]; simpl in Hpairs; destruct Hpairs as [Hpair Hpairs].
    { destruct s0 as [s | ].
      - destruct Hpair as (o & v & Ho & _). discriminate.
      - exists w. split; [ reflexivity | ]. intros i s o v _ Ho. discriminate. }
    destruct s0 as [s | ].
    + destruct Hpair as (o & v & -> & Hv & Hs).
      simpl zip_with. cbn [populate_stores_loop].
      destruct Hs as [Hempty | (l & held & -> & Hheld & Heq)].
      * simpl in Hnd. rewrite Hempty in Hnd.
        apply NoDup_cons_iff in Hnd. destruct Hnd as [Hfresh Hnd].
        destruct (IH os (set_store_vals (insert (store_loc s) v) w))
          as (w' & Hrun & Hvals).
        { now apply replay_pairs_stored. }
        { now rewrite empty_slot_locs_stored. }
        exists w'.
        rewrite bind_run, out_store_val_lookup, Hv, bind_run,
          (out_store_store_empty s v w Hempty).
        split; [ exact Hrun | ].
        destruct (populate_stores_loop_keeps (zip ss os)
                    (set_store_vals (insert (store_loc s) v) w)) as (Hkeep & _).
        rewrite Hrun in Hkeep. simpl snd in Hkeep.
        intros [ | i ] s1 o1 v1 Hi Ho1 Hv1; simpl in Hi, Ho1.
        -- injection Hi as <-. injection Ho1 as <-.
           exists v. split; [ | left; congruence ].
           apply Hkeep. simpl. apply lookup_insert_eq.
        -- apply (Hvals i s1 o1 v1 Hi Ho1). simpl.
           rewrite lookup_insert_ne; [ exact Hv1 | congruence ].
      * simpl in Hnd. rewrite Hheld in Hnd.
        destruct (IH os w Hpairs Hnd) as (w' & Hrun & Hvals).
        exists w'.
        rewrite bind_run, out_store_val_lookup, Hv, bind_run,
          (out_store_store_equal_held l held v w Hheld Heq).
        split; [ exact Hrun | ].
        destruct (populate_stores_loop_keeps (zip ss os) w) as (Hkeep & _).
        rewrite Hrun in Hkeep. simpl snd in Hkeep.
        intros [ | i ] s1 o1 v1 Hi Ho1 Hv1; simpl in Hi, Ho1.
        -- injection Hi as <-. injection Ho1 as <-.
           exists held. split; [ now apply Hkeep | ].
           right. replace v1 with v by congruence. exact Heq.
        -- exact (Hvals i s1 o1 v1 Hi Ho1 Hv1).
    + simpl in Hnd. destruct (IH os w Hpairs Hnd) as (w' & Hrun & Hvals).
      exists w'. simpl zip_with. cbn [populate_stores_loop].
      split; [ exact Hrun | ].
      intros [ | i ] s1 o1 v1 Hi Ho1 Hv1; simpl in Hi, Ho1; [ discriminate | ].
      exact (Hvals i s1 o1 v1 Hi Ho1 Hv1).
Qed.

Variable copy : list (nat * list value) -> list (nat * list value).

(** An invocation that finds an entry replays the recorded stores and
    returns the recorded answer, whatever [call] is. *)
Lemma memoized_fun_hit (call : WrappedFun -> list value -> py value) (cfg : config_t)
    (fun_ : WrappedFun) (args : list value) (fun_caches : gmap nat cache_table)
    (ans : value) (recorded : list (option store_obj)) (w : world) :
  table_get (default [] (fun_caches !! fun_id (f fun_))) (make_key copy cfg fun_ args)
  = Some (ans, recorded) ->
  replay_ready w (stores fun_) recorded ->
  exists w1,
    memoized_fun call copy cfg fun_ args fun_caches w
    = (Ok ans, w1,
       <[fun_id (f fun_) := default [] (fun_caches !! fun_id (f fun_))]> fun_caches)
    /\ globals w1 = globals w
    /\ (forall i s, stores fun_ !! i = Some (Some s) ->
          exists o v v', recorded !! i = Some (Some o)
                         /\ out_store_val o w = (Ok v, w)
                         /\ out_store_val s w1 = (Ok v', w1)
                         /\ (v' = v \/ py_eq v' v = Some true)).
Proof.
  intros Hhit [Hpairs Hnd].
  destruct (populate_stores_loop_replays (stores fun_) recorded w Hpairs Hnd)
    as (w1 & Hrun & Hvals).
  destruct (populate_stores_loop_keeps (zip (stores fun_) recorded) w) as (_ & Hglob & _).
  rewrite Hrun in Hglob. simpl snd in Hglob.
  exists w1. split; [ | split; [ exact Hglob | ] ].
  - unfold memoized_fun. rewrite Hhit. unfold populate_stores. now rewrite Hrun.
  - intros i s Hi.
    destruct (replay_pairs_lookup w (stores fun_) recorded i s Hpairs Hi)
      as (o & v & Ho & Hv).
    destruct (Hvals i s o v Hi Ho Hv) as (v' & Hs & Hrel).
    exists o, v, v'. split; [ exact Ho | ].
    rewrite !out_store_val_lookup, Hv, Hs. auto.
Qed.

(** The same for an invocation that follows one that ran [call] and
    stored its answer under an equal key. *)
Lemma memoized_fun_hit_after_miss (call call2 : WrappedFun -> list value -> py value)
    (cfg : config_t) (fun1 fun2 : WrappedFun) (args args2 : list value)
    (fun_caches : gmap nat cache_table) (w w1 w2 : world) (ans : value) :
  table_get (default [] (fun_caches !! fun_id (f fun1))) (make_key copy cfg fun1 args) = None ->
  call fun1 args w = (Ok ans, w1) ->
  fun_id (f fun1) = fun_id (f fun2) ->
  cache_key_eqb (make_key copy cfg fun1 args) (make_key copy cfg fun2 args2) = true ->
  replay_ready w2 (stores fun2) (stores fun1) ->
  exists fun_caches1 w3,
    memoized_fun call copy cfg fun1 args fun_caches w = (Ok ans, w1, fun_caches1)
    /\ memoized_fun call2 copy cfg fun2 args2 fun_caches1 w2 = (Ok ans, w3, fun_caches1)
    /\ globals w3 = globals w2
    /\ (forall i s, stores fun2 !! i = Some (Some s) ->
          exists o v v', stores fun1 !! i = Some (Some o)
                         /\ out_store_val o w2 = (Ok v, w2)
                         /\ out_store_val s w3 = (Ok v', w3)
                         /\ (v' = v \/ py_eq v' v = Some true)).
Proof.
  intros Hmiss Hcall Hid Hkey Hready.
  destruct (memoized_fun_hit call2 cfg fun2 args2
              (<[fun_id (f fun1) :=
                   table_set (default [] (fun_caches !! fun_id (f fun1)))
                     (make_key copy cfg fun1 args) (ans, stores fun1)]>
                 (<[fun_id (f fun1) := default [] (fun_caches !! fun_id (f fun1))]>
                    fun_caches))
              ans (stores fun1) w2) as (w3 & Hsecond & Hrest).
  - rewrite <- Hid, lookup_insert_eq. simpl default.
    rewrite <- (table_get_equal_key _ _ _ Hkey). apply table_get_set.
  - exact Hready.
  - rewrite <- Hid, lookup_insert_eq in Hsecond. simpl default in Hsecond.
    rewrite !insert_insert_eq in Hsecond.
    exists (<[fun_id (f fun1) :=
                table_set (default [] (fun_caches !! fun_id (f fun1)))
                  (make_key copy cfg fun1 args) (ans, stores fun1)]> fun_caches), w3.
    split; [ | split; [ exact Hsecond | exact Hrest ] ].
    unfold memoized_fun. rewrite Hmiss, Hcall. now rewrite insert_insert_eq.
Qed.

End Replay.

(** C3, as the code has it.  Take a first invocation of the memoized
    function that finds no entry for its key and whose one run of [call]
    returns [ans].  Take a second invocation with an equal wrapped
    function, equal arguments and the same configuration, made when each
    recorded store holds a value and each store of its wrapped function
    either holds nothing (these being distinct objects) or is an
    [EqualStore] that holds a value equal to the recorded one.  Then the
    second invocation returns [ans] whatever function is given to it as
    [call] (which it therefore does not invoke), leaves the cache as it
    was, and each store of its wrapped function ends with the value of
    the recorded store at the same position, or with the equal value it
    held, which its accessor returns. *)
Theorem memoized_fun_second_call_replays `{PyEq}
    (call call2 : WrappedFun -> list value -> py value)
    (copy : list (nat * list value) -> list (nat * list value))
    (cfg : config_t) (fun1 fun2 : WrappedFun) (args args2 : list value)
    (fun_caches : gmap nat cache_table) (w w1 w2 : world) (ans : value) :
  table_get (default [] (fun_caches !! fun_id (f fun1))) (make_key copy cfg fun1 args) = None ->
  call fun1 args w = (Ok ans, w1) ->
  WrappedFun_eq fun1 fun2 = true ->
  value_eqb (VTuple args) (VTuple args2) = true ->
  (jax_check_tracer_leaks cfg = true -> copy_respects copy) ->
  replay_ready w2 (stores fun2) (stores fun1) ->
  exists fun_caches1 w3,
    memoized_fun call copy cfg fun1 args fun_caches w = (Ok ans, w1, fun_caches1)
    /\ memoized_fun call2 copy cfg fun2 args2 fun_caches1 w2 = (Ok ans, w3, fun_caches1)
    /\ globals w3 = globals w2
    /\ (forall i s, stores fun2 !! i = Some (Some s) ->
          exists o v v', stores fun1 !! i = Some (Some o)
                         /\ out_store_val o w2 = (Ok v, w2)
                         /\ out_store_val s w3 = (Ok v', w3)
                         /\ (v' = v \/ py_eq v' v = Some true)).
Proof.
  intros Hmiss Hcall Heq Hargs Hcopy Hready.
  unfold WrappedFun_eq in Heq.
  repeat (apply andb_true_iff in Heq; destruct Heq as [Heq ?]).
  apply Nat.eqb_eq in Heq.
  apply (memoized_fun_hit_after_miss copy call call2 cfg fun1 fun2 args args2
           fun_caches w w1 w2 ans Hmiss Hcall Heq); [ | exact Hready ].
  now apply same_parts_same_key.
Qed.

Lemma memoized_fun_second_call_replays_witness :
  exists fun_caches1 w3 v',
    @memoized_fun structural_eq (@call_it structural_eq) (fun ts => ts) default_config
      (negated_plus_one_eq 0) [VInt 1] ∅ empty_world
    = (Ok (VInt (-2)), set_store_vals (insert 0 (VInt 2)) empty_world, fun_caches1)
    /\ @memoized_fun structural_eq (fun _ _ => raise (PyException "NotCalled" VNone))
         (fun ts => ts) default_config (negated_plus_one_eq 0) [VBool true] fun_caches1
         (set_store_vals (insert 0 (VInt 2)) empty_world)
       = (Ok (VInt (-2)), w3, fun_caches1)
    /\ out_store_val (AnEqualStore 0) w3 = (Ok v', w3)
    /\ (v' = VInt 2 \/ @py_eq structural_eq v' (VInt 2) = Some true).
Proof.
  destruct (@memoized_fun_second_call_replays structural_eq (@call_it structural_eq)
              (fun _ _ => raise (PyException "NotCalled" VNone)) (fun ts => ts)
              default_config (negated_plus_one_eq 0) (negated_plus_one_eq 0)
              [VInt 1] [VBool true] ∅
              empty_world (set_store_vals (insert 0 (VInt 2)) empty_world)
              (set_store_vals (insert 0 (VInt 2)) empty_world) (VInt (-2)))
    as (fun_caches1 & w3 & Hfirst & Hsecond & _ & Hvals).
  - reflexivity.
  - reflexivity.
  - reflexivity.
  - reflexivity.
  - discriminate.
  - split.
    + split; [ | exact I ].
      exists (AnEqualStore 0), (VInt 2). split; [ reflexivity | ].
      split; [ reflexivity | ]. right. exists 0, (VInt 2). repeat split.
    + constructor.
  - destruct (Hvals 0 (AnEqualStore 0) eq_refl) as (o & v & v' & Ho & Hv & Hs & Hrel).
    injection Ho as <-.
    assert (Hv2 : v = VInt 2).
    { rewrite out_store_val_lookup in Hv. simpl in Hv.
      rewrite lookup_insert_eq in Hv. congruence. }
    subst v. exists fun_caches1, w3, v'.
    split; [ exact Hfirst | ]. split; [ exact Hsecond | ]. split; [ exact Hs | exact Hrel ].
Defined.

(** C3, as it is stated, fails for a wrapped function that is equal to the
    first one because it is the first one: its store still holds the
    auxiliary output of the first invocation, and the second invocation
    raises [StoreException("Store occupied")] instead of returning. *)
Lemma memoized_fun_same_stores_second_call_raises :
  WrappedFun_eq (negated_plus_one 0) (negated_plus_one 0) = true
  /\ exists w1 fun_caches1,
       @memoized_fun structural_eq (@call_it structural_eq) (fun ts => ts) default_config
         (negated_plus_one 0) [VInt 3] ∅ empty_world
       = (Ok (VInt (-4)), w1, fun_caches1)
       /\ @memoized_fun structural_eq (@call_it structural_eq) (fun ts => ts) default_config
            (negated_plus_one 0) [VInt 3] fun_caches1 w1
          = (Raise (StoreException "Store occupied"), w1, fun_caches1).
Proof.
  split; [ reflexivity | ].
  eexists. eexists. split; [ reflexivity | ]. vm_compute. reflexivity.
Qed.

(** ** Further checks on concrete runs *)

(** Whatever a plain [Store] holds, two [store] calls in a row end with
    [StoreException("Store occupied")]. *)
Lemma Store_store_twice_any_state (self : loc) (v1 v2 : value) (w : world) :
  fst (bind (Store.store self v1) (fun _ => Store.store self v2) w)
  = Raise (StoreException "Store occupied").
Proof.
  rewrite bind_run. destruct (store_vals w !! self) as [held | ] eqn:Hheld.
  - now rewrite (Store_store_occupied self held v1 w Hheld).
  - rewrite (Store_store_empty self v1 w Hheld).
    now rewrite (Store_store_occupied self v1 v2 _ (stored_lookup self v1 w)).
Qed.

(** An [EqualStore] whose held value cannot be compared with the new one
    raises the exception of the inner [Store]. *)
Lemma EqualStore_store_incomparable (eq : PyEq) (self : loc) (held v : value) (w : world) :
  store_vals w !! self = Some held ->
  eq held v = None ->
  @EqualStore.store eq self v w = (Raise (StoreException "Store occupied"), w).
Proof.
  intros Hheld Hcmp. unfold EqualStore.store.
  rewrite try_except_run, (Store_store_occupied self held v w Hheld), Hheld.
  unfold py_eq. now rewrite Hcmp.
Qed.

(** The thunk returned by [transformation_with_aux] reads the auxiliary
    output once the wrapped function has been called. *)
Example transformation_with_aux_thunk :
  bind (transformation_with_aux negate_result
          (transformation double_args (wrap_init plus_one None) []) [] false)
       (fun p =>
          bind (@call_wrapped structural_eq (fst p) [VInt 3] [])
               (fun r => bind (snd p) (fun aux => ret (r, aux))))
       empty_world
  = (Ok (VInt (-7), VInt 7),
     {| store_vals := {[ 0 := VInt 7 ]}; next_store := 1; globals := ∅ |}).
Proof. vm_compute. reflexivity. Qed.

(** [hashable_partial] puts its static arguments in front of the
    arguments of the call. *)
Example hashable_partial_prepends :
  @call_wrapped structural_eq
    (hashable_partial (wrap_init plus_one None) [VInt 41]) [] [] empty_world
  = (Ok (VInt 42), empty_world).
Proof. reflexivity. Qed.

(** * Further properties *)

(** ** Stores *)

(** [reset] empties a store whatever it held: [val] then raises
    [StoreException("Store empty")], and the next [store] succeeds and its
    value is the one [val] returns. *)
Theorem Store_reset_allows_store_again (self : loc) (v : value) (w : world) :
  Store.reset self w = (Ok tt, set_store_vals (delete self) w)
  /\ Store.val self (set_store_vals (delete self) w)
     = (Raise (StoreException "Store empty"), set_store_vals (delete self) w)
  /\ bind (Store.reset self)
          (fun _ => bind (Store.store self v) (fun _ => Store.val self)) w
     = (Ok v, set_store_vals (insert self v) (set_store_vals (delete self) w)).
Proof.
  assert (Hempty : store_vals (set_store_vals (delete self) w) !! self = None)
    by (simpl; apply lookup_delete_eq).
  split; [ reflexivity | ]. split; [ now apply Store_val_empty | ].
  rewrite bind_run. unfold Store.reset at 1. rewrite bind_run.
  rewrite (Store_store_empty self v _ Hempty).
  apply Store_val_occupied, stored_lookup.
Qed.

(** A [store] on a store that holds a value, of either class and with any
    new value, leaves the whole state as it was: it raises or does
    nothing, and never replaces the value. *)
Theorem store_on_occupied_changes_nothing `{PyEq} (s : store_obj) (v held : value)
    (w : world) :
  store_vals w !! store_loc s = Some held ->
  snd (out_store_store s v w) = w /\ out_store_val s w = (Ok held, w).
Proof.
  intros Hheld. split.
  - now apply out_store_store_occupied_state with (held := held).
  - now rewrite out_store_val_lookup, Hheld.
Qed.

Lemma store_on_occupied_changes_nothing_witness :
  snd (@out_store_store structural_eq (AnEqualStore 0) (VInt 2)
         (set_store_vals (insert 0 (VInt 1)) empty_world))
  = set_store_vals (insert 0 (VInt 1)) empty_world
  /\ out_store_val (AnEqualStore 0) (set_store_vals (insert 0 (VInt 1)) empty_world)
     = (Ok (VInt 1), set_store_vals (insert 0 (VInt 1)) empty_world).
Proof.
  exact (@store_on_occupied_changes_nothing structural_eq (AnEqualStore 0) (VInt 2)
           (VInt 1) (set_store_vals (insert 0 (VInt 1)) empty_world) eq_refl).
Defined.

Lemma EqualStore_store_incomparable_witness :
  @EqualStore.store never_comparable 0 (VInt 1)
    (set_store_vals (insert 0 (VInt 1)) empty_world)
  = (Raise (StoreException "Store occupied"),
     set_store_vals (insert 0 (VInt 1)) empty_world).
Proof.
  exact (EqualStore_store_incomparable never_comparable 0 (VInt 1) (VInt 1)
           (set_store_vals (insert 0 (VInt 1)) empty_world) eq_refl eq_refl).
Defined.

(** [populate_stores] never replaces or removes a value that a store
    holds, whatever the two lists of stores are and whether it returns or
    raises; it leaves the globals alone. *)
Theorem populate_stores_keeps_held_values `{PyEq} (self : WrappedFun)
    (stores' : list (option store_obj)) (l : loc) (held : value) (w : world) :
  store_vals w !! l = Some held ->
  store_vals (snd (populate_stores self stores' w)) !! l = Some held
  /\ globals (snd (populate_stores self stores' w)) = globals w.
Proof.
  intros Hheld. unfold populate_stores.
  destruct (populate_stores_loop_keeps (zip (stores self) stores') w) as (Hvals & Hglob & _).
  split; [ now apply Hvals | exact Hglob ].
Qed.

Lemma populate_stores_keeps_held_values_witness :
  store_vals
    (snd (@populate_stores structural_eq (negated_plus_one 0) [Some (AStore 1)]
            {| store_vals := {[ 0 := VInt 4; 1 := VInt 5 ]}; next_store := 2;
               globals := ∅ |})) !! 0
  = Some (VInt 4).
Proof.
  exact (proj1 (@populate_stores_keeps_held_values structural_eq (negated_plus_one 0)
                  [Some (AStore 1)] 0 (VInt 4)
                  {| store_vals := {[ 0 := VInt 4; 1 := VInt 5 ]}; next_store := 2;
                     globals := ∅ |} eq_refl)).
Defined.

(** ** wrap_init and the order of the parameters *)

Lemma String_leb_spec (a b : string) :
  String.leb a b = true <-> a = b \/ OrderedTypeEx.String_as_OT.lt a b.
Proof.
  unfold String.leb.
  destruct (String.compare a b) eqn:Hcmp.
  - apply OrderedTypeEx.String_as_OT.cmp_eq in Hcmp. tauto.
  - apply OrderedTypeEx.String_as_OT.cmp_lt in Hcmp. tauto.
  - split; [ discriminate | ].
    intros [-> | Hlt].
    + assert (Heq : String.compare b b = Eq)
        by now apply OrderedTypeEx.String_as_OT.cmp_eq.
      congruence.
    + apply OrderedTypeEx.String_as_OT.cmp_lt in Hlt.
      unfold OrderedTypeEx.String_as_OT.cmp in Hlt. congruence.
Qed.

Lemma String_leb_trans (a b c : string) :
  String.leb a b = true -> String.leb b c = true -> String.leb a c = true.
Proof.
  rewrite !String_leb_spec. intros [-> | Hab] [-> | Hbc]; auto.
  right. eapply OrderedTypeEx.String_as_OT.lt_trans; eassumption.
Qed.

Lemma insert_sorted_perm (kv : string * value) (l : list (string * value)) :
  Permutation (insert_sorted kv l) (kv :: l).
Proof.
  induction l as [ | kv' l IH ]; simpl; [ reflexivity | ].
  destruct (String.leb (fst kv) (fst kv')); [ reflexivity | ].
  rewrite IH. apply perm_swap.
Qed.

Lemma sorted_perm (items : list (string * value)) : Permutation (sorted items) items.
Proof.
  induction items as [ | kv items IH ]; simpl; [ reflexivity | ].
  rewrite insert_sorted_perm. now constructor.
Qed.

Lemma insert_sorted_sorted (kv : string * value) (l : list (string * value)) :
  StronglySorted key_le l -> StronglySorted key_le (insert_sorted kv l).
Proof.
  induction l as [ | kv' l IH ]; simpl; intros Hs.
  - repeat constructor.
  - apply StronglySorted_inv in Hs. destruct Hs as [Hs Hall].
    destruct (String.leb (fst kv) (fst kv')) eqn:Hle.
    + constructor; [ now constructor | ].
      constructor; [ exact Hle | ].
      eapply List.Forall_impl; [ | exact Hall ].
      intros x Hx. unfold key_le in *. eapply String_leb_trans; eassumption.
    + constructor; [ now apply IH | ].
      assert (Hge : key_le kv' kv).
      { unfold key_le. destruct (String.leb_total (fst kv') (fst kv)); congruence. }
      rewrite List.Forall_forall in Hall |- *. intros x Hx.
      apply (Permutation_in _ (insert_sorted_perm kv l)) in Hx.
      destruct Hx as [<- | Hx]; [ exact Hge | now apply Hall ].
Qed.

Lemma sorted_sorted (items : list (string * value)) : StronglySorted key_le (sorted items).
Proof.
  induction items as [ | kv items IH ]; simpl; [ constructor | ].
  now apply insert_sorted_sorted.
Qed.

(** Two lists in the order of their keys, with the same items and no key
    twice, are the same list. *)
Lemma sorted_unique (l1 : list (string * value)) :
  forall l2 : list (string * value),
    StronglySorted key_le l1 -> StronglySorted key_le l2 ->
    Permutation l1 l2 -> List.NoDup (map fst l1) -> l1 = l2.
Proof.
  induction l1 as [ | a l1 IH ]; intros l2 Hs1 Hs2 Hperm Hnd.
  - apply Permutation_nil in Hperm. now subst.
  - destruct l2 as [ | b l2 ].
    { apply Permutation_sym, Permutation_nil in Hperm. discriminate. }
    apply StronglySorted_inv in Hs1. destruct Hs1 as [Hs1 Hall1].
    apply StronglySorted_inv in Hs2. destruct Hs2 as [Hs2 Hall2].
    simpl in Hnd. apply NoDup_cons_iff in Hnd. destruct Hnd as [Hfresh Hnd].
    assert (Hab : a = b).
    { assert (Ha : In a (b :: l2)) by (eapply Permutation_in; [ exact Hperm | now left ]).
      assert (Hb : In b (a :: l1))
        by (eapply Permutation_in; [ symmetry; exact Hperm | now left ]).
      destruct Ha as [-> | Ha]; [ reflexivity | ].
      destruct Hb as [-> | Hb]; [ reflexivity | ].
      rewrite List.Forall_forall in Hall1, Hall2.
      pose proof (String.leb_antisym _ _ (Hall1 b Hb) (Hall2 a Ha)) as Hkey.
      exfalso. apply Hfresh. rewrite Hkey. now apply in_map. }
    subst b. f_equal.
    apply IH; try assumption. eapply Permutation_cons_inv. exact Hperm.
Qed.

Lemma dict_get_in (d : kwargs_t) (k : string) (v : value) :
  List.NoDup (map fst d) -> In (k, v) d -> dict_get d k = Some v.
Proof.
  induction d as [ | [k0 v0] d IH ]; simpl; intros Hnd Hin; [ contradiction | ].
  apply NoDup_cons_iff in Hnd. destruct Hnd as [Hfresh Hnd].
  destruct Hin as [Heq | Hin].
  - injection Heq as -> ->. now rewrite String.eqb_refl.
  - destruct (String.eqb k0 k) eqn:Hk.
    + apply String.eqb_eq in Hk. subst k0.
      exfalso. apply Hfresh. change k with (fst (k, v)). now apply in_map.
    + now apply IH.
Qed.

Lemma dict_get_some_in (d : kwargs_t) (k : string) (v : value) :
  dict_get d k = Some v -> In (k, v) d.
Proof.
  induction d as [ | [k0 v0] d IH ]; simpl; [ discriminate | ].
  destruct (String.eqb k0 k) eqn:Hk.
  - apply String.eqb_eq in Hk. intros [= ->]. left. now subst.
  - intros Hget. right. now apply IH.
Qed.

(** Looking a key up does not depend on the order of the items of a dict. *)
Lemma dict_get_perm (d1 d2 : kwargs_t) (k : string) :
  List.NoDup (map fst d1) -> Permutation d1 d2 -> dict_get d1 k = dict_get d2 k.
Proof.
  intros Hnd Hperm.
  assert (Hnd2 : List.NoDup (map fst d2)).
  { eapply Permutation_NoDup; [ | exact Hnd ]. now apply Permutation_map. }
  destruct (dict_get d1 k) as [v | ] eqn:H1.
  - symmetry. apply dict_get_in; [ exact Hnd2 | ].
    eapply Permutation_in; [ exact Hperm | ]. now apply dict_get_some_in.
  - destruct (dict_get d2 k) as [v | ] eqn:H2; [ | reflexivity ].
    apply dict_get_some_in in H2.
    apply (Permutation_in _ (Permutation_sym Hperm)) in H2.
    apply (dict_get_in d1 k v Hnd) in H2. congruence.
Qed.

(** [wrap_init] gives the same wrapped function for two dicts of
    parameters with the same items, in whatever order the items were
    inserted. *)
Theorem wrap_init_params_order (f0 : function) (d1 d2 : kwargs_t) :
  List.NoDup (map fst d1) ->
  Permutation d1 d2 ->
  wrap_init f0 (Some d1) = wrap_init f0 (Some d2).
Proof.
  intros Hnd Hperm. unfold wrap_init. f_equal.
  apply sorted_unique.
  - apply sorted_sorted.
  - apply sorted_sorted.
  - rewrite !sorted_perm. exact Hperm.
  - eapply Permutation_NoDup; [ | exact Hnd ].
    apply Permutation_map. symmetry. apply sorted_perm.
Qed.

Lemma wrap_init_params_order_witness :
  wrap_init plus_one (Some [("b", VInt 1); ("a", VInt 2)])
  = wrap_init plus_one (Some [("a", VInt 2); ("b", VInt 1)]).
Proof.
  apply (wrap_init_params_order plus_one [("b", VInt 1); ("a", VInt 2)]
           [("a", VInt 2); ("b", VInt 1)]).
  - repeat constructor; simpl; intuition discriminate.
  - apply perm_swap.
Defined.

(** A function wrapped by [wrap_init] alone is called as it is: on the
    arguments of the call and a dict in which a key has the value of the
    keyword argument of that name, or else of the parameter of that name;
    its result or its exception is that of [call_wrapped]. *)
Theorem call_wrapped_wrap_init `{PyEq} (f0 : function) (d kwargs : kwargs_t)
    (args : list value) (w : world) :
  List.NoDup (map fst d) ->
  List.NoDup (map fst kwargs) ->
  exists m : kwargs_t,
    call_wrapped (wrap_init f0 (Some d)) args kwargs w = fun_run f0 args m w
    /\ forall k : string,
         dict_get m k =
         match dict_get kwargs k with
         | Some v => Some v
         | None => dict_get d k
         end.
Proof.
  intros Hd Hkw. exists (dict_of (sorted d) kwargs). split.
  - unfold call_wrapped, bind, try_except. simpl.
    destruct (fun_run f0 args (dict_of (sorted d) kwargs) w) as [[ans | e] w1];
      reflexivity.
  - intros k. unfold dict_of. rewrite dict_get_update, (dict_get_of_items kwargs k Hkw).
    destruct (dict_get kwargs k); [ reflexivity | ].
    assert (Hsd : List.NoDup (map fst (sorted d))).
    { eapply Permutation_NoDup; [ | exact Hd ].
      apply Permutation_map. symmetry. apply sorted_perm. }
    rewrite (dict_get_of_items (sorted d) k Hsd).
    apply dict_get_perm; [ exact Hsd | apply sorted_perm ].
Qed.

Lemma call_wrapped_wrap_init_witness :
  exists m : kwargs_t,
    @call_wrapped structural_eq
      (wrap_init read_mode (Some [("mode", VInt 1); ("level", VInt 0)])) [] [] empty_world
    = fun_run read_mode [] m empty_world
    /\ dict_get m "mode" = Some (VInt 1).
Proof.
  destruct (@call_wrapped_wrap_init structural_eq read_mode
              [("mode", VInt 1); ("level", VInt 0)] [] [] empty_world)
    as (m & Hcall & Hget).
  - repeat constructor; simpl; intuition discriminate.
  - constructor.
  - exists m. split; [ exact Hcall | exact (Hget "mode") ].
Defined.

(** ** hashable_partial *)

Section BottomOfStack.
Context `{PyEq}.

(** A generator that yields back what it is sent and has nothing to clean
    up, as the one of [hashable_partial]. *)
Let passthrough : generator := Generator (fun ans => ret ans) (ret tt).

Lemma apply_transforms_bottom (entries : list wrapping) :
  forall (args : list value) (kwargs : kwargs_t)
         (stack : list (generator * option store_obj))
         (b : generator * option store_obj) (w : world),
    apply_transforms entries args kwargs (stack ++ [b])%list w =
    match apply_transforms entries args kwargs stack w with
    | (Ok (args1, kwargs1, stack1), w1) => (Ok (args1, kwargs1, (stack1 ++ [b])%list), w1)
    | (Raise e, w1) => (Raise e, w1)
    end.
Proof.
  induction entries as [ | [[gen gen_static_args] out_store] entries IH ];
    intros args kwargs stack b w; simpl.
  - reflexivity.
  - rewrite !bind_run.
    destruct (gen_run gen (gen_static_args ++ args)%list kwargs w)
      as [[[[args1 kwargs1] g] | e] w1]; [ | reflexivity ].
    apply (IH args1 kwargs1 ((g, out_store) :: stack) b w1).
Qed.

Lemma close_all_bottom (stack : list (generator * option store_obj)) (w : world) :
  close_all (stack ++ [(passthrough, None)])%list w = close_all stack w.
Proof.
  revert w. induction stack as [ | [g o] stack IH ]; intros w; simpl.
  - reflexivity.
  - rewrite !bind_run. destruct (close g w) as [[[] | e] w1]; [ apply IH | reflexivity ].
Qed.

Lemma unwind_bottom (stack : list (generator * option store_obj)) :
  forall (ans : value) (w : world),
    unwind (stack ++ [(passthrough, None)])%list ans w = unwind stack ans w.
Proof.
  induction stack as [ | [g o] stack IH ]; intros ans w; simpl.
  - reflexivity.
  - rewrite !bind_run, !try_except_run.
    destruct (send g ans w) as [[ans1 | e] w1].
    + destruct o as [s | ]; [ | apply IH ].
      rewrite !bind_run.
      destruct (unpack2 ans1 w1) as [[[ans2 side] | e] w2]; [ | reflexivity ].
      rewrite !bind_run.
      destruct (out_store_store s side w2) as [[[] | e] w3]; [ apply IH | reflexivity ].
    + rewrite !bind_run, close_all_bottom.
      destruct (close_all stack w1) as [[[] | e0] w2]; reflexivity.
Qed.

End BottomOfStack.

(** [hashable_partial] is partial application: calling the wrapped
    function it returns on [args], without keyword arguments, is calling
    the wrapped function it was given on the static arguments followed by
    [args], with the same result or exception and the same effects.  With
    a keyword argument the call raises [TypeError] at once. *)
Theorem hashable_partial_call_wrapped `{PyEq} (fun_ : WrappedFun)
    (gen_static_args args : list value) (kv : string * value) (kwargs : kwargs_t)
    (w : world) :
  call_wrapped (hashable_partial fun_ gen_static_args) args [] w
  = call_wrapped fun_ (gen_static_args ++ args)%list [] w
  /\ call_wrapped (hashable_partial fun_ gen_static_args) args (kv :: kwargs) w
     = (Raise (PyException "TypeError" VNone), w).
Proof.
  split; [ | reflexivity ].
  unfold call_wrapped, hashable_partial, transformation, wrap.
  cbn [transforms stores f params zip_with apply_transforms].
  rewrite !bind_run. cbn [hashable_partial_gen gen_run]. unfold ret at 1.
  pose proof (apply_transforms_bottom (zip (transforms fun_) (stores fun_))
                (gen_static_args ++ args)%list [] []
                (Generator (fun ans => ret ans) (ret tt), None) w) as Hbottom.
  simpl app in Hbottom. rewrite Hbottom. clear Hbottom.
  destruct (apply_transforms (zip (transforms fun_) (stores fun_))
              (gen_static_args ++ args)%list [] [] w)
    as [[[[args1 kwargs1] stack1] | e] w1]; [ | reflexivity ].
  rewrite !bind_run, !try_except_run.
  destruct (fun_run (f fun_) args1 (dict_of (params fun_) kwargs1) w1) as [[ans | e] w2].
  - apply unwind_bottom.
  - rewrite !bind_run, close_all_bottom.
    destruct (close_all stack1 w2) as [[[] | e0] w3]; reflexivity.
Qed.

(** ** Cleanup, in general *)

Lemma close_all_closed_in_turn (stack : list (generator * option store_obj)) :
  forall w w' : world,
    closed_in_turn (map fst stack) w w' -> close_all stack w = (Ok tt, w').
Proof.
  induction stack as [ | [g o] stack IH ]; intros w w' Hclosed; simpl in *.
  - inversion Hclosed; subst. reflexivity.
  - inversion Hclosed as [ | g' gs' w0 w1 w2 Hclose Hrest ]; subst.
    rewrite bind_run, Hclose. now apply IH.
Qed.

(** When the function raises, the generators are closed one after the
    other, the last started first, which is the order in which their
    transformations were wrapped; when every [close] returns, the
    exception that reaches the caller is that of the function, in the
    state that the last [close] leaves.  Here [gs] are the generators in
    the order in which they were started. *)
Theorem call_wrapped_function_raises_closes_in_wrap_order `{PyEq} (f0 : function)
    (params0 : option kwargs_t) (ts : list wrapping) (args args1 : list value)
    (kwargs kwargs1 : kwargs_t) (gs : list (generator * option store_obj))
    (e : exn) (w w1 w2 w3 : world) :
  rewrite_args (rev ts) args kwargs w = (Ok (args1, kwargs1, gs), w1) ->
  fun_run f0 args1 (dict_of (params (wrap_init f0 params0)) kwargs1) w1 = (Raise e, w2) ->
  closed_in_turn (rev (map fst gs)) w2 w3 ->
  length gs = length ts
  /\ call_wrapped (wrap_all (wrap_init f0 params0) ts) args kwargs w = (Raise e, w3).
Proof.
  intros Hargs Hf Hclosed.
  assert (Hclose : close_all (rev gs) w2 = (Ok tt, w3)).
  { apply close_all_closed_in_turn. now rewrite map_rev. }
  split.
  - clear - Hargs. rewrite <- (length_rev ts).
    revert args kwargs w args1 kwargs1 gs w1 Hargs.
    induction (rev ts) as [ | [[gen sa] os] l IH ];
      intros args kwargs w args1 kwargs1 gs w1 Hargs; simpl in Hargs.
    + injection Hargs as <- <- <- <-. reflexivity.
    + rewrite bind_run in Hargs.
      destruct (gen_run gen (sa ++ args)%list kwargs w) as [[[[a2 k2] g] | e2] w2];
        [ | discriminate ].
      rewrite bind_run in Hargs.
      destruct (rewrite_args l a2 k2 w2) as [[[[a3 k3] gs3] | e3] w3] eqn:Hrest;
        [ | discriminate ].
      injection Hargs as <- <- <- <-. simpl. f_equal. eapply IH. exact Hrest.
  - rewrite (call_wrapped_function_raises
               (wrap_all (wrap_init f0 params0) ts) args args1 kwargs kwargs1
               (rev gs) e w w1 w2).
    + now rewrite bind_run, Hclose.
    + rewrite (wrap_all_entries ts (wrap_init f0 params0) eq_refl eq_refl).
      rewrite apply_transforms_rewrite_args, Hargs. now rewrite app_nil_r.
    + destruct (wrap_all_fields ts (wrap_init f0 params0)) as (Hf0 & Hp0 & _ & _).
      rewrite Hf0, Hp0. exact Hf.
Qed.

Lemma call_wrapped_function_raises_closes_in_wrap_order_witness :
  exists w3,
    @call_wrapped structural_eq
      (wrap_all (wrap_init raising_fun None)
         [((logged, [VStr "T1"]), None); ((logged, [VStr "T2"]), None)])
      [VInt 3] [] empty_world
    = (Raise (PyException "ValueError" (VStr "boom")), w3)
    /\ closed_names w3 = [VStr "T1"; VStr "T2"].
Proof.
  exists (set_globals (insert "closed" (VTuple [VStr "T1"; VStr "T2"]))
            (set_globals (insert "closed" (VTuple [VStr "T1"])) empty_world)).
  split; [ | reflexivity ].
  refine (proj2 (@call_wrapped_function_raises_closes_in_wrap_order structural_eq
                   raising_fun None
                   [((logged, [VStr "T1"]), None); ((logged, [VStr "T2"]), None)]
                   [VInt 3] [VInt 3] [] []
                   [(Generator (fun ans => ret ans) (log_closed (VStr "T2")), None);
                    (Generator (fun ans => ret ans) (log_closed (VStr "T1")), None)]
                   (PyException "ValueError" (VStr "boom"))
                   empty_world empty_world empty_world _ eq_refl eq_refl _)).
  simpl. eapply closed_next; [ reflexivity | ].
  eapply closed_next; [ reflexivity | ]. apply closed_none.
Defined.

(** When a generator raises before its first [yield], the exception
    leaves [call_wrapped] from the state in which it was raised: nothing
    runs after it, and no generator started before it is closed. *)
Theorem call_wrapped_generator_raises_at_start `{PyEq} (f0 : function)
    (params0 : option kwargs_t) (ts : list wrapping) (args : list value)
    (kwargs : kwargs_t) (e : exn) (w w1 : world) :
  rewrite_args (rev ts) args kwargs w = (Raise e, w1) ->
  call_wrapped (wrap_all (wrap_init f0 params0) ts) args kwargs w = (Raise e, w1).
Proof.
  intros Hargs. unfold call_wrapped.
  rewrite (wrap_all_entries ts (wrap_init f0 params0) eq_refl eq_refl).
  now rewrite bind_run, apply_transforms_rewrite_args, Hargs.
Qed.

Lemma call_wrapped_generator_raises_at_start_witness :
  @call_wrapped structural_eq
    (wrap_all (wrap_init plus_one None) [((raising_gen, []), None); ((tracked, []), None)])
    [VInt 3] [] empty_world
  = (Raise (PyException "ValueError" (VStr "boom")),
     set_globals (insert "counter" (VInt 1)) empty_world).
Proof.
  exact (@call_wrapped_generator_raises_at_start structural_eq plus_one None
           [((raising_gen, []), None); ((tracked, []), None)] [VInt 3] []
           (PyException "ValueError" (VStr "boom")) empty_world
           (set_globals (insert "counter" (VInt 1)) empty_world) eq_refl).
Defined.

(** ** More on the memoization cache *)

Section CacheFacts.
Context `{PyEq}.
Variable copy : list (nat * list value) -> list (nat * list value).

(** An invocation that finds no entry under its key is a run of [call]. *)
Lemma memoized_fun_miss (call : WrappedFun -> list value -> py value) (cfg : config_t)
    (fun_ : WrappedFun) (args : list value) (fun_caches : gmap nat cache_table)
    (w : world) :
  table_get (default [] (fun_caches !! fun_id (f fun_))) (make_key copy cfg fun_ args) = None ->
  fst (memoized_fun call copy cfg fun_ args fun_caches w) = call fun_ args w.
Proof.
  intros Hmiss. unfold memoized_fun. rewrite Hmiss.
  now destruct (call fun_ args w) as [[ans | e] w1].
Qed.

(** What an invocation returns depends on the dictionary of the decorator
    through the dict of the function only. *)
Lemma memoized_fun_same_table (call : WrappedFun -> list value -> py value)
    (cfg : config_t) (fun_ : WrappedFun) (args : list value)
    (fun_caches fun_caches' : gmap nat cache_table) (w : world) :
  default [] (fun_caches !! fun_id (f fun_)) = default [] (fun_caches' !! fun_id (f fun_)) ->
  fst (memoized_fun call copy cfg fun_ args fun_caches w)
  = fst (memoized_fun call copy cfg fun_ args fun_caches' w).
Proof.
  intros Hsame. unfold memoized_fun. cbv zeta. rewrite Hsame.
  destruct (table_get (default [] (fun_caches' !! fun_id (f fun_)))
              (make_key copy cfg fun_ args)) as [[ans recorded] | ].
  - destruct (populate_stores fun_ recorded w) as [[u | e] w1]; reflexivity.
  - destruct (call fun_ args w) as [[ans | e] w1]; reflexivity.
Qed.

End CacheFacts.

(** A call that raises is not memoized: the exception reaches the caller,
    and the next invocation with the same wrapped function and arguments
    runs [call] again. *)
Theorem memoized_fun_exception_not_cached `{PyEq}
    (call call2 : WrappedFun -> list value -> py value)
    (copy : list (nat * list value) -> list (nat * list value))
    (cfg : config_t) (fun_ : WrappedFun) (args : list value)
    (fun_caches : gmap nat cache_table) (e : exn) (w w1 w2 : world) :
  table_get (default [] (fun_caches !! fun_id (f fun_))) (make_key copy cfg fun_ args) = None ->
  call fun_ args w = (Raise e, w1) ->
  exists fun_caches1,
    memoized_fun call copy cfg fun_ args fun_caches w = (Raise e, w1, fun_caches1)
    /\ fst (memoized_fun call2 copy cfg fun_ args fun_caches1 w2) = call2 fun_ args w2.
Proof.
  intros Hmiss Hcall. eexists. split.
  - unfold memoized_fun. rewrite Hmiss, Hcall. reflexivity.
  - apply memoized_fun_miss. rewrite lookup_insert_eq. exact Hmiss.
Qed.

Lemma memoized_fun_exception_not_cached_witness :
  exists fun_caches1,
    @memoized_fun structural_eq (@call_it structural_eq) (fun ts => ts) default_config
      tracked_raising_fun [VInt 3] ∅ empty_world
    = (Raise (PyException "ValueError" (VStr "boom")),
       set_globals (insert "counter" (VInt 0))
         (set_globals (insert "counter" (VInt 1)) empty_world),
       fun_caches1)
    /\ fst (@memoized_fun structural_eq (fun _ _ => ret VNone) (fun ts => ts)
              default_config tracked_raising_fun [VInt 3] fun_caches1 empty_world)
       = (Ok VNone, empty_world).
Proof.
  exact (@memoized_fun_exception_not_cached structural_eq (@call_it structural_eq)
           (fun _ _ => ret VNone) (fun ts => ts) default_config tracked_raising_fun
           [VInt 3] ∅ (PyException "ValueError" (VStr "boom")) empty_world
           (set_globals (insert "counter" (VInt 0))
              (set_globals (insert "counter" (VInt 1)) empty_world))
           empty_world eq_refl eq_refl).
Defined.



(** After [_evict_function], an invocation for the evicted function runs
    [call] whatever had been memoized for it, and an invocation for
    another function gives what it gave before; after [cache_clear],
    every invocation runs [call]. *)
Theorem evict_function_and_cache_clear `{PyEq}
    (call : WrappedFun -> list value -> py value)
    (copy : list (nat * list value) -> list (nat * list value))
    (cfg : config_t) (fun_ other : WrappedFun) (args : list value)
    (fun_caches : gmap nat cache_table) (w : world) :
  fun_id (f other) <> fun_id (f fun_) ->
  fst (memoized_fun call copy cfg fun_ args (_evict_function (f fun_) fun_caches) w)
  = call fun_ args w
  /\ fst (memoized_fun call copy cfg other args (_evict_function (f fun_) fun_caches) w)
     = fst (memoized_fun call copy cfg other args fun_caches w)
  /\ fst (memoized_fun call copy cfg fun_ args (cache_clear fun_caches) w)
     = call fun_ args w.
Proof.
  intros Hother. split; [ | split ].
  - apply memoized_fun_miss. unfold _evict_function. now rewrite lookup_delete_eq.
  - apply memoized_fun_same_table. unfold _evict_function.
    rewrite lookup_delete_ne by congruence. reflexivity.
  - apply memoized_fun_miss. unfold cache_clear. now rewrite lookup_empty.
Qed.

Lemma evict_function_and_cache_clear_witness :
  fst (@memoized_fun structural_eq (fun _ _ => ret VNone) (fun ts => ts) default_config
         (negated_plus_one 1) [VInt 3]
         (_evict_function plus_one
            {[ 1 := [(make_key (fun ts => ts) default_config (negated_plus_one 0) [VInt 3],
                      (VInt (-4), [Some (AStore 0)]))] ]})
         (set_store_vals (insert 0 (VInt 4)) empty_world))
  = (Ok VNone, set_store_vals (insert 0 (VInt 4)) empty_world).
Proof.
  exact (proj1 (@evict_function_and_cache_clear structural_eq (fun _ _ => ret VNone)
                  (fun ts => ts) default_config (negated_plus_one 1)
                  (wrap_init raising_fun None) [VInt 3]
                  {[ 1 := [(make_key (fun ts => ts) default_config (negated_plus_one 0)
                              [VInt 3],
                            (VInt (-4), [Some (AStore 0)]))] ]}
                  (set_store_vals (insert 0 (VInt 4)) empty_world)
                  ltac:(discriminate))).
Defined.

(** [debug_info] is not part of the memoization key.  Take a second
    wrapped function with the same [f] and equal transforms, parameters
    and [in_type] as one whose answer has been memoized, and whatever
    [debug_info]; let its stores be ready for a replay (the recorded
    stores hold values, and each of its own stores holds nothing, these
    being distinct objects, or is an [EqualStore] holding an equal value).
    Then the memoized answer is returned for it without a run of [call],
    and its stores are replayed. *)
Theorem memoized_fun_ignores_debug_info `{PyEq}
    (call call2 : WrappedFun -> list value -> py value)
    (copy : list (nat * list value) -> list (nat * list value))
    (cfg : config_t) (fun1 fun2 : WrappedFun) (args : list value)
    (fun_caches : gmap nat cache_table) (w w1 w2 : world) (ans : value) :
  table_get (default [] (fun_caches !! fun_id (f fun1))) (make_key copy cfg fun1 args) = None ->
  call fun1 args w = (Ok ans, w1) ->
  fun_id (f fun1) = fun_id (f fun2) ->
  list_eqb transform_eqb (transforms fun1) (transforms fun2) = true ->
  list_eqb param_eqb (params fun1) (params fun2) = true ->
  option_eqb value_eqb (in_type fun1) (in_type fun2) = true ->
  (jax_check_tracer_leaks cfg = true -> copy_respects copy) ->
  replay_ready w2 (stores fun2) (stores fun1) ->
  exists fun_caches1 w3,
    memoized_fun call copy cfg fun1 args fun_caches w = (Ok ans, w1, fun_caches1)
    /\ memoized_fun call2 copy cfg fun2 args fun_caches1 w2 = (Ok ans, w3, fun_caches1)
    /\ (forall i s, stores fun2 !! i = Some (Some s) ->
          exists o v v', stores fun1 !! i = Some (Some o)
                         /\ out_store_val o w2 = (Ok v, w2)
                         /\ out_store_val s w3 = (Ok v', w3)
                         /\ (v' = v \/ py_eq v' v = Some true)).
Proof.
  intros Hmiss Hcall Hid Hts Hps Hit Hcopy Hready.
  destruct (memoized_fun_hit_after_miss copy call call2 cfg fun1 fun2 args args
              fun_caches w w1 w2 ans Hmiss Hcall Hid)
    as (fun_caches1 & w3 & Hfirst & Hsecond & _ & Hvals).
  - apply same_parts_same_key; try assumption. apply value_eqb_refl.
  - exact Hready.
  - exists fun_caches1, w3. auto.
Qed.

Lemma memoized_fun_ignores_debug_info_witness :
  WrappedFun_eq (negated_plus_one 0) (negated_plus_one_traced 1) = false
  /\ exists fun_caches1 w3,
       @memoized_fun structural_eq (@call_it structural_eq) (fun ts => ts) default_config
         (negated_plus_one 0) [VInt 3] ∅ empty_world
       = (Ok (VInt (-4)), set_store_vals (insert 0 (VInt 4)) empty_world, fun_caches1)
       /\ @memoized_fun structural_eq (fun _ _ => raise (PyException "NotCalled" VNone))
            (fun ts => ts) default_config (negated_plus_one_traced 1) [VInt 3]
            fun_caches1 (set_store_vals (insert 0 (VInt 4)) empty_world)
          = (Ok (VInt (-4)), w3, fun_caches1).
Proof.
  split; [ reflexivity | ].
  destruct (@memoized_fun_ignores_debug_info structural_eq (@call_it structural_eq)
              (fun _ _ => raise (PyException "NotCalled" VNone)) (fun ts => ts)
              default_config (negated_plus_one 0) (negated_plus_one_traced 1) [VInt 3] ∅
              empty_world (set_store_vals (insert 0 (VInt 4)) empty_world)
              (set_store_vals (insert 0 (VInt 4)) empty_world) (VInt (-4)))
    as (fun_caches1 & w3 & Hfirst & Hsecond & _).
  - reflexivity.
  - reflexivity.
  - reflexivity.
  - reflexivity.
  - reflexivity.
  - reflexivity.
  - discriminate.
  - split.
    + split; [ | exact I ].
      exists (AStore 0), (VInt 4). split; [ reflexivity | ].
      split; [ reflexivity | ]. left. reflexivity.
    + repeat constructor. simpl. tauto.
  - exists fun_caches1, w3. split; [ exact Hfirst | exact Hsecond ].
Defined.

(** ** add_debug_info and annotate *)

(** [add_debug_info] sets [debug_info] once: on a wrapped function
    without debug info it returns one that differs in [debug_info] only,
    which no longer compares equal to the first but has the same
    memoization key; on a wrapped function with debug info it fails its
    assertion, even when asked to add [None]. *)
Theorem add_debug_info_once (f0 : WrappedFun) (d : TracingDebugInfo)
    (d' : option TracingDebugInfo) (w : world) :
  debug_info f0 = None ->
  add_debug_info f0 None w = (Ok f0, w)
  /\ exists f1,
       add_debug_info f0 (Some d) w = (Ok f1, w)
       /\ debug_info f1 = Some d
       /\ (f f1, transforms f1, stores f1, params f1, in_type f1)
          = (f f0, transforms f0, stores f0, params f0, in_type f0)
       /\ WrappedFun_eq f0 f1 = false
       /\ (forall copy cfg args, make_key copy cfg f1 args = make_key copy cfg f0 args)
       /\ add_debug_info f1 d' w = (Raise (PyException "AssertionError" VNone), w).
Proof.
  intros Hnone. unfold add_debug_info. rewrite Hnone. split; [ reflexivity | ].
  eexists. split; [ reflexivity | ]. simpl. repeat split.
  unfold WrappedFun_eq. simpl. rewrite Hnone. simpl. apply andb_false_r.
Qed.

Lemma add_debug_info_once_witness :
  exists f1,
    add_debug_info (negated_plus_one 0) (Some sample_debug_info) empty_world
    = (Ok f1, empty_world)
    /\ WrappedFun_eq (negated_plus_one 0) f1 = false
    /\ add_debug_info f1 None empty_world
       = (Raise (PyException "AssertionError" VNone), empty_world).
Proof.
  destruct (add_debug_info_once (negated_plus_one 0) sample_debug_info None empty_world
              eq_refl) as (_ & f1 & Hadd & _ & _ & Hne & _ & Hagain).
  exists f1. split; [ exact Hadd | ]. split; [ exact Hne | exact Hagain ].
Defined.

(** [annotate] sets [in_type] once, after the check of the new [in_type]
    has passed: the result differs in [in_type] only, and annotating it
    again fails the assertion before any check, even with [None]; a
    failing check is the failure of [annotate]; [None] on a wrapped
    function without [in_type] gives it back without a check. *)
Theorem annotate_once (check : value -> py unit) (f0 : WrappedFun) (t : value)
    (t' : option value) (w : world) :
  in_type f0 = None ->
  annotate check f0 None w = (Ok f0, w)
  /\ match check t w with
     | (Ok _, w1) =>
         exists f1,
           annotate check f0 (Some t) w = (Ok f1, w1)
           /\ in_type f1 = Some t
           /\ (f f1, transforms f1, stores f1, params f1, debug_info f1)
              = (f f0, transforms f0, stores f0, params f0, debug_info f0)
           /\ annotate check f1 t' w1 = (Raise (PyException "AssertionError" VNone), w1)
     | (Raise e, w1) => annotate check f0 (Some t) w = (Raise e, w1)
     end.
Proof.
  intros Hnone. unfold annotate. rewrite Hnone. split; [ reflexivity | ].
  rewrite bind_run. destruct (check t w) as [[[] | e] w1]; [ | reflexivity ].
  eexists. split; [ reflexivity | ]. simpl. repeat split.
Qed.

Lemma annotate_once_witness :
  annotate tuples_only (negated_plus_one 0) (Some (VInt 1)) empty_world
  = (Raise (PyException "AssertionError" VNone), empty_world)
  /\ annotate tuples_only (negated_plus_one 0) None empty_world
     = (Ok (negated_plus_one 0), empty_world).
Proof.
  destruct (annotate_once tuples_only (negated_plus_one 0) (VInt 1) None empty_world
              eq_refl) as [Hnone Hcheck].
  exact (conj Hcheck Hnone).
Defined.

(** ** Equality and hash, once more *)

Lemma debug_info_eqb_eq (a b : TracingDebugInfo) : debug_info_eqb a b = true -> a = b.
Proof.
  destruct a as [ta fa na ra], b as [tb fb nb rb]. unfold debug_info_eqb. simpl.
  intros Heq. repeat (apply andb_true_iff in Heq; destruct Heq as [Heq ?]).
  apply String.eqb_eq in Heq.
  match goal with Hs : String.eqb _ _ = true |- _ => apply String.eqb_eq in Hs end.
  match goal with Hl : list_eqb String.eqb _ _ = true |- _ =>
    apply (list_eqb_eq _ _ _ (fun x y => proj1 (String.eqb_eq x y))) in Hl end.
  match goal with Ho : option_eqb Nat.eqb _ _ = true |- _ =>
    apply (option_eqb_eq _ _ _ (fun x y => proj1 (Nat.eqb_eq x y))) in Ho end.
  now subst.
Qed.

Lemma debug_info_option_eqb (x y : option TracingDebugInfo) :
  option_eqb debug_info_eqb x y = true <-> x = y.
Proof.
  split.
  - apply option_eqb_eq, debug_info_eqb_eq.
  - intros ->. apply option_eqb_refl, debug_info_eqb_refl.
Qed.

(** [__eq__] answers [True] exactly when the two hashed tuples have the
    same representative. *)
Lemma WrappedFun_eq_canonical (a b : WrappedFun) :
  WrappedFun_eq a b = true <-> canonical_view a = canonical_view b.
Proof.
  unfold WrappedFun_eq, canonical_view.
  rewrite !andb_true_iff, Nat.eqb_eq, transforms_eqb_key_eqb, debug_info_option_eqb,
    (list_eqb_canonical key_transform_eqb canonical_transform key_transform_eqb_canonical),
    (list_eqb_canonical param_eqb canonical_param param_eqb_canonical),
    (option_eqb_canonical value_eqb canonical value_eqb_canonical).
  split.
  - intros [[[[-> ->] ->] ->] ->]. reflexivity.
  - intros [= -> -> -> -> ->]. auto 10.
Qed.

(** [__eq__] is an equivalence: every wrapped function equals itself, the
    answer does not depend on the side each one is on, and two wrapped
    functions equal to a third are equal. *)
Theorem WrappedFun_eq_equivalence (a b c : WrappedFun) :
  WrappedFun_eq a a = true
  /\ WrappedFun_eq a b = WrappedFun_eq b a
  /\ (WrappedFun_eq a b = true -> WrappedFun_eq b c = true -> WrappedFun_eq a c = true).
Proof.
  split; [ | split ].
  - now apply WrappedFun_eq_canonical.
  - apply (canonical_sym WrappedFun_eq canonical_view WrappedFun_eq_canonical).
  - apply (canonical_trans WrappedFun_eq canonical_view WrappedFun_eq_canonical).
Qed.

(** Wrapped functions whose parameters are 1 and [True] compare equal, as
    do those whose static arguments are; with 2 they do not. *)
Example WrappedFun_eq_bool_is_int :
  WrappedFun_eq (wrap_init plus_one (Some [("k", VInt 1)]))
                (wrap_init plus_one (Some [("k", VBool true)])) = true
  /\ WrappedFun_eq (transformation double_args (wrap_init plus_one None) [VInt 0])
                   (transformation double_args (wrap_init plus_one None) [VBool false])
     = true
  /\ WrappedFun_eq (wrap_init plus_one (Some [("k", VInt 2)]))
                   (wrap_init plus_one (Some [("k", VBool true)])) = false.
Proof. repeat split. Qed.

(** ** Transforms and stores go together *)

(** Every wrapped function made by [wrap_init] and any number of [wrap]
    has as many stores as transforms, one pair more for each [wrap]. *)
Theorem wrap_keeps_transforms_and_stores_paired (f0 : function)
    (params0 : option kwargs_t) (ts : list wrapping) :
  length (transforms (wrap_all (wrap_init f0 params0) ts)) = length ts
  /\ length (stores (wrap_all (wrap_init f0 params0) ts)) = length ts
  /\ in_type (wrap_all (wrap_init f0 params0) ts) = None
  /\ debug_info (wrap_all (wrap_init f0 params0) ts) = None.
Proof.
  destruct (wrap_all_fields ts (wrap_init f0 params0)) as (_ & _ & Ht & Hs).
  rewrite Ht, Hs. simpl. rewrite !app_nil_r, !length_rev, !length_map.
  repeat split.
  - destruct ts as [ | t ts ] using rev_ind; [ reflexivity | ].
    unfold wrap_all. now rewrite fold_left_app.
  - destruct ts as [ | t ts ] using rev_ind; [ reflexivity | ].
    unfold wrap_all. now rewrite fold_left_app.
Qed.

Lemma slot_locs_in (ss : list (option store_obj)) (s : store_obj) :
  In (Some s) ss -> In (store_loc s) (slot_locs ss).
Proof.
  induction ss as [ | [s0 | ] ss IH ]; simpl; intros Hin; try tauto.
  - destruct Hin as [[= ->] | Hin]; [ now left | right; now apply IH ].
  - destruct Hin as [Hin | Hin]; [ discriminate | now apply IH ].
Qed.

(** [transformation_with_aux] makes a new store for the auxiliary output:
    when the stores of the wrapped function it is given were made before
    (their addresses are below [next_store]), the store it puts first in
    [stores] is none of them, it is of the class asked for, and the thunk
    returned with it raises [StoreException("Store empty")] until
    something is stored.  No value of any store changes, the globals are
    as before, and the stores of the result were made before the next
    store will be. *)
Theorem transformation_with_aux_new_store (gen : gen_function) (fun_ : WrappedFun)
    (gen_static_args : list value) (use_eq_store : bool) (w : world) :
  stores_made w (stores fun_) ->
  exists (s : store_obj) (w1 : world),
    transformation_with_aux gen fun_ gen_static_args use_eq_store w
    = (Ok (wrap fun_ gen gen_static_args (Some s), out_store_val s), w1)
    /\ s = (if use_eq_store then AnEqualStore (next_store w) else AStore (next_store w))
    /\ ~ In (Some s) (stores fun_)
    /\ ~ In (store_loc s) (slot_locs (stores fun_))
    /\ out_store_val s w1 = (Raise (StoreException "Store empty"), w1)
    /\ store_vals w1 = store_vals w
    /\ globals w1 = globals w
    /\ stores_made w1 (stores (wrap fun_ gen gen_static_args (Some s))).
Proof.
  intros [Hbelow Hnone].
  assert (Hfresh : ~ In (next_store w) (slot_locs (stores fun_))).
  { intros Hin. apply Hbelow in Hin. lia. }
  assert (Hvals : delete (next_store w) (store_vals w) = store_vals w).
  { apply delete_id, Hnone. lia. }
  assert (Hmade : forall s, store_loc s = next_store w ->
            stores_made
              {| store_vals := delete (next_store w) (store_vals w);
                 next_store := S (next_store w); globals := globals w |}
              (Some s :: stores fun_)).
  { intros s Hs. split; simpl.
    - intros l [<- | Hl]; [ lia | ]. apply Hbelow in Hl. lia.
    - intros l Hl. rewrite Hvals. apply Hnone. lia. }
  destruct use_eq_store; eexists; eexists; (split; [ reflexivity | ]);
    (split; [ reflexivity | ]); simpl store_loc;
    (split; [ intros Hin; apply slot_locs_in in Hin; exact (Hfresh Hin) | ]);
    (split; [ exact Hfresh | ]);
    (split; [ rewrite out_store_val_lookup; simpl; now rewrite lookup_delete_eq | ]);
    (split; [ exact Hvals | ]); (split; [ reflexivity | ]); now apply Hmade.
Qed.

Lemma transformation_with_aux_new_store_witness :
  exists w1,
    transformation_with_aux negate_result (negated_plus_one 0) [] false one_store_world
    = (Ok (wrap (negated_plus_one 0) negate_result [] (Some (AStore 1)),
           out_store_val (AStore 1)), w1)
    /\ stores (wrap (negated_plus_one 0) negate_result [] (Some (AStore 1)))
       = [Some (AStore 1); Some (AStore 0)].
Proof.
  destruct (transformation_with_aux_new_store negate_result (negated_plus_one 0) [] false
              one_store_world) as (s & w1 & Hrun & -> & _).
  - split.
    + intros l [<- | []]. simpl. lia.
    + intros l _. reflexivity.
  - exists w1. split; [ exact Hrun | reflexivity ].
Defined.
